(** * ytarchive, util.go: fragment download helpers

    A shallow embedding of the helpers of [util.go] that decide how a
    fragment worker continues, how download URLs are built, and how the
    [sidx] box is cut out of a fragment, together with the properties the
    specification states about them.

    Conventions of the embedding:
    - a Go [int] is a [Z], taken as 64 bits wide; every arithmetic
      operation of the source wraps ([GoInt.wrap]);
    - a Go [string] is a [string], a [[]byte] is a [list byte];
    - a Go [map] is a [gmap];
    - an [error] is an [option]: [None] is [nil];
    - logging ([LogDebug], [LogWarn], [LogError], [fmt.Println]) only
      writes to the terminal and is left out;
    - one call of a function is followed from entry to return, with no
      other worker acting on the shared [DownloadInfo] in between. *)

From Stdlib Require Import ZArith Ascii String Strings.Byte List Bool Lia.
From stdpp Require Import base gmap strings list.

Open Scope Z_scope.

(** ** Go integers *)

Module GoInt.

Definition IntSize : Z := 64.

Definition MinInt : Z := - 2 ^ (IntSize - 1).
Definition MaxInt : Z := 2 ^ (IntSize - 1) - 1.

(** Two's complement wrap-around of a mathematical result to [int]. *)
Definition wrap (x : Z) : Z :=
  (x + 2 ^ (IntSize - 1)) mod 2 ^ IntSize - 2 ^ (IntSize - 1).

(** Wrap-around of a mathematical result to [uint64]. *)
Definition uint64 (x : Z) : Z := x mod 2 ^ 64.

Definition add (a b : Z) : Z := wrap (a + b).
Definition sub (a b : Z) : Z := wrap (a - b).

Definition in_range (x : Z) : Prop := MinInt <= x <= MaxInt.

End GoInt.

(** ** Go strings and byte slices *)

Module GoString.

Definition code (c : ascii) : Z := Z.of_N (N_of_ascii c).

Definition len (s : string) : Z := Z.of_nat (String.length s).

(** [strings.HasPrefix]. *)
Fixpoint HasPrefix (s prefix : string) {struct prefix} : bool :=
  match prefix, s with
  | EmptyString, _ => true
  | String p prefix', String c s' =>
      if Ascii.eqb c p then HasPrefix s' prefix' else false
  | String _ _, EmptyString => false
  end.

Fixpoint drop (n : nat) (s : string) : string :=
  match n, s with
  | O, _ => s
  | S n', String _ s' => drop n' s'
  | S _, EmptyString => EmptyString
  end.

Fixpoint take (n : nat) (s : string) : string :=
  match n, s with
  | O, _ => EmptyString
  | S n', String c s' => String c (take n' s')
  | S _, EmptyString => EmptyString
  end.

(** [strings.HasSuffix]: the last [len(suffix)] bytes are [suffix]. *)
Definition HasSuffix (s suffix : string) : bool :=
  (String.length suffix <=? String.length s)%nat
  && String.eqb (drop (String.length s - String.length suffix) s) suffix.

(** [strings.Index]: byte index of the first occurrence, or [-1]. *)
Fixpoint Index_from (i : Z) (s substr : string) : Z :=
  if HasPrefix s substr then i
  else match s with
       | EmptyString => -1
       | String _ s' => Index_from (i + 1) s' substr
       end.

Definition Index (s substr : string) : Z := Index_from 0 s substr.

(** [strings.ReplaceAll] for a non-empty [old]: the non-overlapping
    occurrences of [old], leftmost first, become [new].  [skip] counts
    the bytes of a matched occurrence that are still to be dropped. *)
Fixpoint replace_from (old new : string) (skip : nat) (s : string) : string :=
  match s with
  | EmptyString => EmptyString
  | String c s' =>
      match skip with
      | S k => replace_from old new k s'
      | O =>
          if HasPrefix s old
          then new +:+ replace_from old new (String.length old - 1) s'
          else String c (replace_from old new O s')
      end
  end.

Definition ReplaceAll (s old new : string) : string := replace_from old new O s.

(** [string(b)] for a byte slice [b]. *)
Definition of_bytes (b : list byte) : string := string_of_list_byte b.

End GoString.

(** A Go call either returns, panics (a slice bound out of range), or is
    still running when the fuel of the model is used up. *)
Inductive outcome (A : Type) : Type :=
| Returns (a : A)
| Panics
| OutOfFuel.
Arguments Returns {A} a.
Arguments Panics {A}.
Arguments OutOfFuel {A}.

Module GoSlice.

(** [data[lo:hi]] on a slice whose capacity is its length; [None] is the
    run-time panic for bounds out of range. *)
Definition slice {A} (data : list A) (lo hi : Z) : option (list A) :=
  if (0 <=? lo) && (lo <=? hi) && (hi <=? Z.of_nat (length data))
  then Some (take (Z.to_nat (hi - lo)) (drop (Z.to_nat lo) data))
  else None.

Definition len {A} (data : list A) : Z := Z.of_nat (length data).

End GoSlice.

(** ** encoding/hex.Dump *)

Module Hex.

Definition hextable : string := "0123456789abcdef".

Definition hexdigit (d : Z) : ascii :=
  match String.get (Z.to_nat d) hextable with
  | Some c => c
  | None => "0"%char
  end.

(** [hex.Encode] of one byte value: two lower-case digits. *)
Definition encode_byte (v : Z) : string :=
  String (hexdigit (Z.shiftr v 4)) (String (hexdigit (Z.land v 15)) EmptyString).

Definition byte_val (b : byte) : Z := Z.of_N (Byte.to_N b).

(** The offset column: the low 32 bits of the running count, in hex. *)
Definition offset_column (n : Z) : string :=
  encode_byte (Z.land (Z.shiftr n 24) 255) +:+
  encode_byte (Z.land (Z.shiftr n 16) 255) +:+
  encode_byte (Z.land (Z.shiftr n 8) 255) +:+
  encode_byte (Z.land n 255).

(** [toChar]: printable ASCII stays, everything else is a dot. *)
Definition toChar (b : byte) : ascii :=
  if (byte_val b <? 32) || (126 <? byte_val b) then "."%char else ascii_of_byte b.

(** What follows the two digits of the byte in column [used]. *)
Definition separator (used : Z) : string :=
  if used =? 7 then "  "
  else if used =? 15 then "  |"
  else " ".

(** [dumper.Close]: blank columns up to 16, then the right column. *)
Fixpoint padding (cols : nat) (used : Z) : string :=
  match cols with
  | O => EmptyString
  | S cols' =>
      (if used =? 7 then "    " else if used =? 15 then "    |" else "   ")
      +:+ padding cols' (used + 1)
  end.

Definition close (used : Z) (rightChars : string) : string :=
  if used =? 0 then EmptyString
  else padding (Z.to_nat (16 - used)) used +:+ rightChars +:+ "|" +:+ String "010" EmptyString.

(** [dumper.Write], one byte per step. [n] is the count of bytes written
    so far, [used] the column, [rightChars] the right column so far. *)
Fixpoint write (n used : Z) (rightChars : string) (data : list byte) : string :=
  match data with
  | [] => close used rightChars
  | b :: rest =>
      (if used =? 0 then offset_column n +:+ "  " else EmptyString)
      +:+ encode_byte (byte_val b) +:+ separator used
      +:+ (let rightChars' := rightChars +:+ String (toChar b) EmptyString in
           if used + 1 =? 16
           then rightChars' +:+ "|" +:+ String "010" EmptyString
                +:+ write (GoInt.uint64 (n + 1)) 0 EmptyString rest
           else write (GoInt.uint64 (n + 1)) (used + 1) rightChars' rest)
  end.

Definition Dump (data : list byte) : string :=
  match data with
  | [] => EmptyString
  | _ => write 0 0 EmptyString data
  end.

End Hex.

(** ** strconv.ParseUint, strconv.ParseInt, strconv.Atoi *)

Module Strconv.

Inductive NumError : Type := ErrSyntax | ErrRange | ErrBase.

(** [lower(c)] of package strconv: [c | ('x' - 'X')]. *)
Definition lower (c : Z) : Z := Z.lor c 32.

Definition digit_of (c : Z) : option Z :=
  if (48 <=? c) && (c <=? 57) then Some (c - 48)
  else if (97 <=? lower c) && (lower c <=? 122) then Some (lower c - 97 + 10)
  else None.

(** The digit loop of [ParseUint] for an explicit base (no underscores). *)
Fixpoint ParseUint_loop (base cutoff maxVal : Z) (s : string) (n : Z)
  : Z * option NumError :=
  match s with
  | EmptyString => (n, None)
  | String c s' =>
      match digit_of (GoString.code c) with
      | None => (0, Some ErrSyntax)
      | Some d =>
          if base <=? d then (0, Some ErrSyntax)
          else if cutoff <=? n then (maxVal, Some ErrRange)
          else
            let n0 := GoInt.uint64 (n * base) in
            let n1 := GoInt.uint64 (n0 + d) in
            if (n1 <? n0) || (maxVal <? n1) then (maxVal, Some ErrRange)
            else ParseUint_loop base cutoff maxVal s' n1
      end
  end.

Definition maxUint64 : Z := 2 ^ 64 - 1.

(** [ParseUint(s, base, bitSize)] for [2 <= base <= 36]; the prefix
    detection of base 0 is not used by this program and any other base
    is reported as [ErrBase]. *)
Definition ParseUint (s : string) (base bitSize : Z) : Z * option NumError :=
  match s with
  | EmptyString => (0, Some ErrSyntax)
  | _ =>
      if (2 <=? base) && (base <=? 36) then
        let bitSize := if bitSize =? 0 then GoInt.IntSize else bitSize in
        let cutoff := maxUint64 / base + 1 in
        let maxVal := 2 ^ bitSize - 1 in
        ParseUint_loop base cutoff maxVal s 0
      else (0, Some ErrBase)
  end.

(** The second half of [ParseInt]: the sign and the range check on the
    result of [ParseUint]. *)
Definition ParseInt_signed (neg : bool) (bitSize : Z) (r : Z * option NumError)
  : Z * option NumError :=
  match r with
  | (_, Some ErrSyntax) => (0, Some ErrSyntax)
  | (_, Some ErrBase) => (0, Some ErrBase)
  | (un, _) =>
      let bitSize := if bitSize =? 0 then GoInt.IntSize else bitSize in
      let cutoff := 2 ^ (bitSize - 1) in
      if negb neg && (cutoff <=? un) then (cutoff - 1, Some ErrRange)
      else if neg && (cutoff <? un) then (- cutoff, Some ErrRange)
      else (if neg then - un else un, None)
  end.

Definition ParseInt (s : string) (base bitSize : Z) : Z * option NumError :=
  match s with
  | EmptyString => (0, Some ErrSyntax)
  | String c0 rest =>
      let neg := Ascii.eqb c0 "-" in
      let s1 := if Ascii.eqb c0 "+" || Ascii.eqb c0 "-" then rest else s in
      ParseInt_signed neg bitSize (ParseUint s1 base bitSize)
  end.

(** [Atoi(s)] is [ParseInt(s, 10, 0)] converted to [int]; its fast path
    for short strings computes the same result. *)
Definition Atoi (s : string) : Z * option NumError := ParseInt s 10 0.

End Strconv.


(** ** Atom scanner and fragment splicer *)

Record Atom : Type := { Offset : Z; Length : Z }.

Module Atoms.

(** The loop of [GetAtoms]; one unit of fuel per iteration. *)
Fixpoint GetAtoms_loop (fuel : nat) (data : list byte)
    (atoms : gmap string Atom) (ofs : Z) : outcome (gmap string Atom) :=
  match fuel with
  | O => OutOfFuel
  | S fuel' =>
      if GoSlice.len data <? GoInt.add ofs 8 then Returns atoms
      else
        match GoSlice.slice data ofs (GoInt.add ofs 4) with
        | None => Panics
        | Some lenBytes =>
            let lenHex := Hex.Dump lenBytes in
            let (aLen, err) := Strconv.ParseInt lenHex 16 0 in
            if bool_decide (err <> None) || (GoSlice.len data <? aLen)
            then Returns atoms
            else
              match GoSlice.slice data (GoInt.add ofs 4) (GoInt.add ofs 8) with
              | None => Panics
              | Some nameBytes =>
                  let aName := GoString.of_bytes nameBytes in
                  GetAtoms_loop fuel' data
                    (<[aName := {| Offset := ofs; Length := aLen |}]> atoms)
                    (GoInt.add ofs aLen)
              end
        end
  end.

Definition GetAtoms (fuel : nat) (data : list byte) : outcome (gmap string Atom) :=
  GetAtoms_loop fuel data ∅ 0.

(** [append(data[:ofs], data[rlen:]...)]: the value of the slice that is
    returned (the append also writes into the backing array of [data]). *)
Definition RemoveSidx (fuel : nat) (data : list byte) : outcome (list byte) :=
  match GetAtoms fuel data with
  | Returns atoms =>
      match atoms !! "sidx"%string with
      | None => Returns data
      | Some sidx =>
          let ofs := Offset sidx in
          let rlen := GoInt.add (Offset sidx) (Length sidx) in
          match GoSlice.slice data 0 ofs, GoSlice.slice data rlen (GoSlice.len data) with
          | Some before, Some after => Returns (before ++ after)
          | _, _ => Panics
          end
      end
  | Panics => Panics
  | OutOfFuel => OutOfFuel
  end.

End Atoms.

(** A box of the container format: the big-endian length of the whole box
    (header included), the four bytes of the tag, the payload. *)
Definition be32 (n : Z) : list byte :=
  map (fun k => match Byte.of_N (Z.to_N (Z.land (Z.shiftr n k) 255)) with
                | Some b => b
                | None => x00
                end) [24; 16; 8; 0].

Definition box (tag : string) (payload : list byte) : list byte :=
  be32 (8 + Z.of_nat (length payload)) ++ list_byte_of_string tag ++ payload.

Definition fragment_with_sidx : list byte :=
  box "ftyp" [x69; x73; x6f; x6d]%byte
  ++ box "sidx" [x00; x00; x00; x01]%byte
  ++ box "moof" []
  ++ box "mdat" [xde; xad; xbe; xef]%byte.

Definition fragment_without_sidx : list byte :=
  box "ftyp" [x69; x73; x6f; x6d]%byte
  ++ box "moof" []
  ++ box "mdat" [xde; xad; xbe; xef]%byte.

(** ** The video-info collaborator and the worker state *)

(** Modelled from the spec: the status of a video that a refresh reads
    from the network (liveness, unavailability, direct-download-link mode,
    the download URL of each data type).  The [DownloadInfo] struct is
    declared outside [util.go]. *)
Record VideoStatus : Type := {
  Live : bool;
  Unavailable : bool;
  GVideoDDL : bool;
  DownloadUrl : string -> string
}.

(** Modelled from the spec: [DownloadInfo], the shared record of one video:
    its status and the set of data types marked finished. *)
Record DownloadInfo : Type := {
  Status : VideoStatus;
  Finished : gset string
}.

(** The calls on the collaborator that reach outside the process. *)
Inductive Call : Type := CallPrintStatus | CallGetVideoInfo.

(** What a function of [util.go] that receives a [*DownloadInfo] acts on:
    the record behind the pointer and the calls made so far. *)
Record World : Type := {
  Info : DownloadInfo;
  Calls : list Call
}.

(** Modelled from the spec: the [fragThreadState] struct (the worker
    state of the data model), declared outside [util.go], with the fields
    that [util.go] reads and writes. *)
Record fragThreadState : Type := {
  Name : string;
  DataType : string;
  SeqNum : Z;
  Tries : Z;
  FullRetries : Z;
  MaxSeq : Z;
  Is403 : bool
}.

Definition set_FullRetries (v : Z) (st : fragThreadState) : fragThreadState :=
  {| Name := Name st; DataType := DataType st; SeqNum := SeqNum st;
     Tries := Tries st; FullRetries := v; MaxSeq := MaxSeq st; Is403 := Is403 st |}.

Definition set_Tries (v : Z) (st : fragThreadState) : fragThreadState :=
  {| Name := Name st; DataType := DataType st; SeqNum := SeqNum st;
     Tries := v; FullRetries := FullRetries st; MaxSeq := MaxSeq st; Is403 := Is403 st |}.

Definition set_Is403 (v : bool) (st : fragThreadState) : fragThreadState :=
  {| Name := Name st; DataType := DataType st; SeqNum := SeqNum st;
     Tries := Tries st; FullRetries := FullRetries st; MaxSeq := MaxSeq st; Is403 := v |}.

(** A state monad over [World] for the code that works through the
    [*DownloadInfo] pointer. *)
Definition DI (A : Type) : Type := World -> A * World.

Definition ret {A} (a : A) : DI A := fun w => (a, w).

Definition bind {A B} (c : DI A) (k : A -> DI B) : DI B :=
  fun w => let (a, w') := c w in k a w'.

Notation "x <- c ;; k" := (bind c (fun x => k))
  (at level 100, c at next level, right associativity).
Notation "c ;;; k" := (bind c (fun _ => k))
  (at level 100, right associativity).

Definition StatusForbidden : Z := 403.
Definition StatusNotFound : Z := 404.

Section Worker.

(** The per-fragment retry ceiling, a constant declared outside
    [util.go], taken as a parameter. *)
Variable FragMaxTries : Z.

(** What the network answers to a refresh of the given record. *)
Variable network : DownloadInfo -> VideoStatus.

(** The methods of [DownloadInfo] are declared outside [util.go]. *)

(** Modelled from the spec: the query of the finished flag of a data
    type. *)
Definition IsFinished (dataType : string) : DI bool :=
  fun w => (bool_decide (dataType ∈ Finished (Info w)), w).

(** Modelled from the spec: the query of the liveness flag. *)
Definition IsLive : DI bool := fun w => (Live (Status (Info w)), w).

(** Modelled from the spec: the query of the unavailability flag. *)
Definition IsUnavailable : DI bool := fun w => (Unavailable (Status (Info w)), w).

(** Modelled from the spec: the query of direct-download-link mode. *)
Definition IsGVideoDDL : DI bool := fun w => (GVideoDDL (Status (Info w)), w).

(** Modelled from the spec: the query of the current download URL of a
    data type. *)
Definition GetDownloadUrl (dataType : string) : DI string :=
  fun w => (DownloadUrl (Status (Info w)) dataType, w).

(** Modelled from the spec: marking a data type finished; the flag is
    only ever set. *)
Definition SetFinished (dataType : string) : DI unit :=
  fun w => (tt, {| Info := {| Status := Status (Info w);
                              Finished := {[ dataType ]} ∪ Finished (Info w) |};
                   Calls := Calls w |}).

(** Modelled from the spec: the refresh from the network. It replaces the
    status by the network's answer and leaves the finished flags alone. *)
Definition GetVideoInfo : DI unit :=
  fun w => (tt, {| Info := {| Status := network (Info w);
                              Finished := Finished (Info w) |};
                   Calls := Calls w ++ [CallGetVideoInfo] |}).

(** Modelled from the spec: the status line; it only prints. *)
Definition PrintStatus : DI unit :=
  fun w => (tt, {| Info := Info w; Calls := Calls w ++ [CallPrintStatus] |}).

(** *** util.go *)

Definition RefreshURL (dataType currentUrl : string) : DI unit :=
  ddl <- IsGVideoDDL ;;
  if negb ddl then
    newUrl <- GetDownloadUrl dataType ;;
    if (GoString.len currentUrl =? 0) || String.eqb newUrl currentUrl then
      PrintStatus ;;;
      GetVideoInfo
    else ret tt
  else ret tt.

Definition ContinueFragmentDownload (state : fragThreadState)
  : DI (bool * fragThreadState) :=
  finished <- IsFinished (DataType state) ;;
  if finished then ret (false, state)
  else if FragMaxTries <=? Tries state then
    let state := set_FullRetries (GoInt.sub (FullRetries state) 1) state in
    PrintStatus ;;;
    live <- IsLive ;;
    (if live then GetVideoInfo else ret tt) ;;;
    live <- IsLive ;;
    if negb live then
      unavailable <- IsUnavailable ;;
      if unavailable && Is403 state then
        PrintStatus ;;;
        SetFinished (DataType state) ;;;
        ret (false, state)
      else if (-1 <? MaxSeq state)
              && (SeqNum state <? GoInt.sub (MaxSeq state) 2)
              && (0 <? FullRetries state) then
        PrintStatus ;;;
        ret (true, state)
      else
        SetFinished (DataType state) ;;;
        ret (false, state)
    else
      PrintStatus ;;;
      ret (true, set_Tries 0 state)
  else ret (true, state).

Definition HandleFragHttpError (state : fragThreadState) (statusCode : Z)
    (url : string) : DI fragThreadState :=
  PrintStatus ;;;
  if statusCode =? StatusForbidden then
    let state := set_Is403 true state in
    RefreshURL (DataType state) url ;;;
    ret state
  else if (statusCode =? StatusNotFound) && (-1 <? MaxSeq state) then
    live <- IsLive ;;
    if negb live && (GoInt.sub (MaxSeq state) 2 <? SeqNum state) then
      PrintStatus ;;;
      SetFinished (DataType state) ;;;
      ret state
    else ret state
  else ret state.

Definition HandleFragDownloadError (state : fragThreadState) (err : string)
  : DI fragThreadState :=
  PrintStatus ;;;
  if -1 <? MaxSeq state then
    live <- IsLive ;;
    if negb live && (GoInt.sub (MaxSeq state) 2 <=? SeqNum state) then
      SetFinished (DataType state) ;;;
      PrintStatus ;;;
      ret state
    else ret state
  else ret state.

End Worker.

(** The number of refreshes requested from the network so far. *)
Definition is_refresh (c : Call) : bool :=
  match c with
  | CallGetVideoInfo => true
  | CallPrintStatus => false
  end.

Definition refreshes (w : World) : nat :=
  length (List.filter is_refresh (Calls w)).

Definition is_finished (dataType : string) (w : World) : bool :=
  bool_decide (dataType ∈ Finished (Info w)).

(** ** Manifest parser *)

(** DASH manifest element: the media id and a download URL. *)
Record Representation : Type := { Id : string; BaseURL : string }.

Section Manifest.

(** [xml.Unmarshal(manifest, &reps)] of encoding/xml, taken as given:
    the decoded representations, or [None] for an error. *)
Variable xml_Unmarshal : list byte -> option (list Representation).

(** The body of the [for _, r := range reps] loop. *)
Definition add_representation (urls : gmap Z string) (r : Representation)
  : gmap Z string :=
  let (itag, err) := Strconv.Atoi (Id r) in
  if bool_decide (err <> None) then urls
  else if (0 <? itag) && (0 <? GoString.len (BaseURL r))
       then <[itag := GoString.ReplaceAll (BaseURL r) "%" "%%" +:+ "sq/%d"]> urls
       else urls.

Definition urls_of_representations (reps : list Representation) : gmap Z string :=
  fold_left add_representation reps ∅.

Definition GetUrlsFromManifest (manifest : list byte) : gmap Z string :=
  match xml_Unmarshal manifest with
  | None => ∅
  | Some reps => urls_of_representations reps
  end.

End Manifest.

(** The words of the specification for one representation: every literal
    percent of the base URL doubled, the fixed fragment-index suffix, and
    when an entry is not skipped. *)
Fixpoint double_percent (s : string) : string :=
  match s with
  | EmptyString => EmptyString
  | String c s' =>
      if Ascii.eqb c "%"
      then String "%" (String "%" (double_percent s'))
      else String c (double_percent s')
  end.

Definition fragment_index_suffix : string := "sq/%d".

Definition url_template (r : Representation) : string :=
  double_percent (BaseURL r) +:+ fragment_index_suffix.

Definition usable (r : Representation) (itag : Z) : Prop :=
  Strconv.Atoi (Id r) = (itag, None) /\ 0 < itag /\ BaseURL r <> EmptyString.

(** The representation of the specification's example. *)
Definition representation_140 : Representation :=
  {| Id := "140"; BaseURL := "http://x/y?a=1%b" |}.

(** ** Direct-URL parser *)

(** What [ParseGvideoUrl] reads from a parsed [*url.URL]: the results of
    its [Hostname()] and [Query()] methods. *)
Record URL : Type := {
  Hostname : string;
  Query : gmap string (list string)
}.

(** [url.Values.Get]: the first value of the key, or the empty string. *)
Definition Values_Get (v : gmap string (list string)) (key : string) : string :=
  match v !! key with
  | Some (x :: _) => x
  | _ => EmptyString
  end.

Section GvideoUrl.

(** Constants declared outside [util.go], taken as parameters. *)
Variables DtypeAudio DtypeVideo : string.
Variable AudioItag : Z.

(** [url.Parse] of net/url and [strings.ToLower], taken as given;
    [None] is a parse error. *)
Variable url_Parse : string -> option URL.
Variable ToLower : string -> string.

Definition ParseGvideoUrl (gvUrl dataType : string) : string * Z :=
  let newUrl := EmptyString in
  match url_Parse gvUrl with
  | None => (newUrl, 0)
  | Some parsedUrl =>
      let lowerHost := ToLower (Hostname parsedUrl) in
      let sqIndex := GoString.Index gvUrl "&sq=" in
      let (itag, err) := Strconv.Atoi (Values_Get (Query parsedUrl) "itag") in
      if bool_decide (err <> None) then (newUrl, 0)
      else if negb (GoString.HasSuffix lowerHost ".googlevideo.com") then (newUrl, 0)
      else if bool_decide (Query parsedUrl !! "noclen"%string = None) then (newUrl, 0)
      else if String.eqb dataType DtypeAudio && negb (itag =? AudioItag) then (newUrl, 0)
      else if String.eqb dataType DtypeVideo && (itag =? AudioItag) then (newUrl, 0)
      else if sqIndex <? 0 then (newUrl, 0)
      else (GoString.take (Z.to_nat sqIndex) gvUrl +:+ "&sq=%s", itag)
  end.

End GvideoUrl.

(** A stand-in for [url.Parse] and [strings.ToLower] on ASCII URLs of the
    plain form [scheme://host:port/path?k=v&k=v#fragment], without
    escapes. It serves to run [ParseGvideoUrl] on examples; the
    properties below are proved for every [url.Parse] and [ToLower]. *)
Module PlainUrl.

Fixpoint split_at (sep : ascii) (s : string) : string * option string :=
  match s with
  | EmptyString => (EmptyString, None)
  | String c s' =>
      if Ascii.eqb c sep then (EmptyString, Some s')
      else let (before, after) := split_at sep s' in (String c before, after)
  end.

Fixpoint fields (sep : ascii) (cur s : string) : list string :=
  match s with
  | EmptyString => [cur]
  | String c s' =>
      if Ascii.eqb c sep then cur :: fields sep EmptyString s'
      else fields sep (cur +:+ String c EmptyString) s'
  end.

Definition add_pair (m : gmap string (list string)) (kv : string)
  : gmap string (list string) :=
  match kv with
  | EmptyString => m
  | _ =>
      let (k, v) := split_at "=" kv in
      <[k := default [] (m !! k) ++ [default EmptyString v]]> m
  end.

Definition Parse (s : string) : option URL :=
  let i := GoString.Index s "://" in
  if i <? 0 then None
  else
    let rest := GoString.drop (Z.to_nat (i + 3)) s in
    let (hostpath, q) := split_at "?" rest in
    let (hostport, _) := split_at "/" hostpath in
    let (host, _) := split_at ":" hostport in
    let pairs := match q with
                 | None => []
                 | Some q => fields "&" EmptyString (fst (split_at "#" q))
                 end in
    Some {| Hostname := host; Query := fold_left add_pair pairs ∅ |}.

Definition lower_ascii (c : ascii) : ascii :=
  if (65 <=? GoString.code c) && (GoString.code c <=? 90)
  then ascii_of_N (N_of_ascii c + 32) else c.

Fixpoint ToLower (s : string) : string :=
  match s with
  | EmptyString => EmptyString
  | String c s' => String (lower_ascii c) (ToLower s')
  end.

End PlainUrl.

Definition audio_url : string :=
  "https://R1---sn-a.GoogleVideo.com/videoplayback?noclen=1&itag=140&sq=42&rn=7".

Definition whole_file_url : string :=
  "https://r1---sn-a.googlevideo.com/videoplayback?clen=9&itag=140&sq=42".

(** ** Sample inputs *)

(** A network whose answer repeats the status already known. *)
Definition same_status (di : DownloadInfo) : VideoStatus := Status di.

Definition status_of (live unavailable ddl : bool) (url : string) : VideoStatus :=
  {| Live := live; Unavailable := unavailable; GVideoDDL := ddl;
     DownloadUrl := fun _ => url |}.

(** A stream that has ended, with nothing finished and no call made yet. *)
Definition ended_stream : World :=
  {| Info := {| Status := status_of false false false "http://x/sq/%d";
                Finished := ∅ |};
     Calls := [] |}.

(** A stream that has ended and whose video is no longer available. *)
Definition revoked_stream : World :=
  {| Info := {| Status := status_of false true false "http://x/sq/%d";
                Finished := ∅ |};
     Calls := [] |}.

(** A live stream whose audio is already marked finished. *)
Definition audio_finished_stream : World :=
  {| Info := {| Status := status_of true false false "http://x/sq/%d";
                Finished := {[ "audio"%string ]} |};
     Calls := [] |}.

(** A live stream in direct-download-link mode. *)
Definition ddl_stream : World :=
  {| Info := {| Status := status_of true false true "http://x/sq/%d";
                Finished := ∅ |};
     Calls := [] |}.

Definition audio_worker (seqNum tries fullRetries maxSeq : Z) (is403 : bool)
  : fragThreadState :=
  {| Name := "audio"; DataType := "audio"; SeqNum := seqNum; Tries := tries;
     FullRetries := fullRetries; MaxSeq := maxSeq; Is403 := is403 |}.

(** ** File names, string slices, the watch page *)

(** [strings.NewReplacer] on pairs of one-byte strings: every byte of the
    input is looked up in the pairs, and the first pair with that byte
    gives its replacement. *)
Fixpoint replace_byte (pairs : list (ascii * ascii)) (c : ascii) : ascii :=
  match pairs with
  | [] => c
  | (old, new) :: rest => if Ascii.eqb c old then new else replace_byte rest c
  end.

Fixpoint Replacer_Replace (pairs : list (ascii * ascii)) (s : string) : string :=
  match s with
  | EmptyString => EmptyString
  | String c s' => String (replace_byte pairs c) (Replacer_Replace pairs s')
  end.

Definition fnameReplacer : list (ascii * ascii) :=
  [("<", "_"); (">", "_"); (":", "_"); ("034", "_"); ("/", "_");
   ("092", "_"); ("|", "_"); ("?", "_"); ("*", "_")]%char.

Definition SterilizeFilename (s : string) : string :=
  Replacer_Replace fnameReplacer s.

(** The bytes that [fnameReplacer] replaces. *)
Definition illegal (c : ascii) : bool :=
  existsb (fun p => Ascii.eqb c (fst p)) fnameReplacer.

Section Fragmented.

(** [strings.ToLower], taken as given. *)
Variable ToLower : string -> string.

Definition IsFragmented (url : string) : bool :=
  0 <? GoString.Index (ToLower url) "noclen".

End Fragmented.

Fixpoint StringsIndex_from (i : Z) (arr : list string) (s : string) : Z :=
  match arr with
  | [] => -1
  | x :: rest => if String.eqb x s then i else StringsIndex_from (i + 1) rest s
  end.

Definition StringsIndex (arr : list string) (s : string) : Z :=
  StringsIndex_from 0 arr s.

(** [InsertStringAt] on a slice of capacity [cap]: the value it returns.
    [arr[:idx+1]] is checked against the capacity, [arr[idx:]] against the
    length; the append shifts the tail by one and [arr[idx] = s] fills the
    gap. *)
Definition InsertStringAt (cap : Z) (arr : list string) (idx : Z) (s : string)
  : outcome (list string) :=
  if GoSlice.len arr =? idx then Returns (arr ++ [s])
  else
    let hi := GoInt.add idx 1 in
    if (0 <=? hi) && (hi <=? cap) then
      match GoSlice.slice arr idx (GoSlice.len arr) with
      | None => Panics
      | Some tail =>
          Returns (<[Z.to_nat idx := s]> (take (Z.to_nat hi) arr ++ tail))
      end
    else Panics.

Definition quote_byte : byte := x22.

Definition HtmlVideoLinkTag : list byte :=
  list_byte_of_string "<link rel=" ++ [quote_byte]
  ++ list_byte_of_string "canonical" ++ [quote_byte]
  ++ list_byte_of_string " href=" ++ [quote_byte]
  ++ list_byte_of_string "https://www.youtube.com/watch?v=".

(** [bytes.Index]: [strings.Index] on the same bytes. *)
Definition bytes_Index (data sep : list byte) : Z :=
  GoString.Index (GoString.of_bytes data) (GoString.of_bytes sep).

Definition GetVideoIdFromWatchPage (data : list byte) : outcome string :=
  let startIdx := bytes_Index data HtmlVideoLinkTag in
  if startIdx <? 0 then Returns EmptyString
  else
    let startIdx := GoInt.add startIdx (GoSlice.len HtmlVideoLinkTag) in
    match GoSlice.slice data startIdx (GoSlice.len data) with
    | None => Panics
    | Some rest =>
        let endIdx := GoInt.add (bytes_Index rest [quote_byte]) startIdx in
        match GoSlice.slice data startIdx endIdx with
        | None => Panics
        | Some id => Returns (GoString.of_bytes id)
        end
    end.

(** Sample pages: one with the tag, an id and its closing quote, one cut
    off inside the id. *)
Definition watch_page : list byte :=
  list_byte_of_string "<html><head>" ++ HtmlVideoLinkTag
  ++ list_byte_of_string "dQw4w9WgXcQ" ++ quote_byte :: list_byte_of_string "></head>".

Definition cut_page : list byte :=
  list_byte_of_string "<html><head>" ++ HtmlVideoLinkTag
  ++ list_byte_of_string "dQw4w9".

(** ** Quality selection *)

(** [strings.Split] for a non-empty separator: the pieces between the
    non-overlapping occurrences of [sep], leftmost first. [cur] is the
    piece being read, [skip] the bytes of a matched separator that are
    still to be dropped. *)
Fixpoint split_from (sep : string) (skip : nat) (cur s : string) : list string :=
  match s with
  | EmptyString => [cur]
  | String c s' =>
      match skip with
      | S k => split_from sep k cur s'
      | O =>
          if GoString.HasPrefix s sep
          then cur :: split_from sep (String.length sep - 1) EmptyString s'
          else split_from sep O (cur +:+ String c EmptyString) s'
      end
  end.

Definition Split (s sep : string) : list string := split_from sep O EmptyString s.

(** [MakeQualityList]: every format followed by a comma and a blank, then
    [best]. *)
Definition MakeQualityList (formats : list string) : string :=
  fold_left (fun sb v => sb +:+ v +:+ ", ") formats EmptyString +:+ "best".

Section Text.

(** [strings.TrimSpace] and [strings.ToLower], taken as given. *)
Variables TrimSpace ToLower : string -> string.

(** The inner loop of [ParseQualitySelection]: the first format equal to
    [stripped] appends it and ends the loop. *)
Fixpoint select_format (formats : list string) (stripped : string)
    (selQualities : list string) : list string :=
  match formats with
  | [] => selQualities
  | v :: rest =>
      if String.eqb stripped v then selQualities ++ [stripped]
      else select_format rest stripped selQualities
  end.

(** The body of the outer loop. *)
Definition select_quality (formats : list string) (selQualities : list string)
    (q : string) : list string :=
  let stripped := TrimSpace q in
  if String.eqb stripped "best" then selQualities ++ [stripped]
  else select_format formats stripped selQualities.

Definition ParseQualitySelection (formats : list string) (quality : string)
  : list string :=
  let quality := ToLower (TrimSpace quality) in
  let qualities := Split quality "/" in
  fold_left (select_quality formats) qualities [].

(** [Contains]: the loop over [arr], with [val] already normalised. *)
Fixpoint Contains_loop (arr : list string) (val : string) : bool :=
  match arr with
  | [] => false
  | s :: rest =>
      if String.eqb (ToLower (TrimSpace s)) val then true
      else Contains_loop rest val
  end.

Definition Contains (arr : list string) (val : string) : bool :=
  Contains_loop arr (ToLower (TrimSpace val)).

End Text.

(** ** Output file names *)

(** The regular expression [%\((\w+)\)s]: a percent sign, an opening
    parenthesis, one or more word bytes, a closing parenthesis, an [s]. *)
Definition is_word (c : ascii) : bool :=
  let n := GoString.code c in
  ((48 <=? n) && (n <=? 57)) || ((65 <=? n) && (n <=? 90))
  || ((97 <=? n) && (n <=? 122)) || (n =? 95).

(** The longest run of word bytes at the start of a string, and what
    follows it. *)
Fixpoint word_run (s : string) : string * string :=
  match s with
  | EmptyString => (EmptyString, EmptyString)
  | String c s' =>
      if is_word c
      then let (w, r) := word_run s' in (String c w, r)
      else (EmptyString, s)
  end.

(** A match of the expression at the start of a string: the whole match
    and the group. *)
Definition match_here (s : string) : option (string * string) :=
  if GoString.HasPrefix s "%(" then
    let (w, r) := word_run (GoString.drop 2 s) in
    match w with
    | EmptyString => None
    | _ => if GoString.HasPrefix r ")s" then Some ("%(" +:+ w +:+ ")s", w) else None
    end
  else None.

(** [FindStringSubmatch]: the leftmost match, or [None] for [nil]. *)
Fixpoint FindStringSubmatch (s : string) : option (string * string) :=
  match match_here s with
  | Some m => Some m
  | None =>
      match s with
      | EmptyString => None
      | String _ s' => FindStringSubmatch s'
      end
  end.

(** The error of [fmt.Errorf("unknown output format key: '%s'", key)]. *)
Inductive FormatError : Type := UnknownKey (key : string).

(** [FormatPythonMapString]; one unit of fuel per iteration of its loop.
    The key is a run of word bytes, on which [strings.ToLower] is the
    lowering of ASCII letters. *)
Fixpoint FormatPythonMapString (fuel : nat) (format : string)
    (vals : gmap string string) : outcome (string * option FormatError) :=
  match fuel with
  | O => OutOfFuel
  | S fuel' =>
      match FindStringSubmatch format with
      | None => Returns (format, None)
      | Some (match0, match1) =>
          let key := PlainUrl.ToLower match1 in
          match vals !! key with
          | None => Returns (EmptyString, Some (UnknownKey key))
          | Some val =>
              FormatPythonMapString fuel' (GoString.ReplaceAll format match0 val) vals
          end
      end
  end.

Section Filenames.

Variables TrimSpace ToLower : string -> string.

(** The list of keys, declared outside [util.go], taken as a parameter. *)
Variable FilenameFormatBlacklist : list string.

(** The body of the loop of [FormatFilename] for one key and value. *)
Definition FormatFilename_entry (k v : string) (fnameVals : gmap string string)
  : gmap string string :=
  let fnameVals :=
    if Contains TrimSpace ToLower FilenameFormatBlacklist k
    then <[k := EmptyString]> fnameVals
    else fnameVals in
  <[k := SterilizeFilename v]> fnameVals.

Definition FormatFilename (fuel : nat) (format : string) (vals : gmap string string)
  : outcome (string * option FormatError) :=
  let fnameVals := map_fold FormatFilename_entry ∅ vals in
  FormatPythonMapString fuel format fnameVals.

End Filenames.

(** The qualities a stream can have, as [util.go] lists them. *)
Definition VideoQualities : list string :=
  ["audio_only"; "144p"; "240p"; "360p"; "480p"; "720p"; "720p60"; "1080p";
   "1080p60"]%string.

(** Sample values for the output name: a title and an id, and a title
    that is its own placeholder. *)
Definition video_vals : gmap string string :=
  {[ "title"%string := "My Stream"%string; "id"%string := "dQw4w9WgXcQ"%string ]}.

Definition looping_vals : gmap string string :=
  {[ "title"%string := "%(title)s"%string ]}.

(** ** Repeated decisions *)

(** Up to [n] calls of [ContinueFragmentDownload] in a row for the same
    fragment, each on the state the call before left, as long as the
    answer is continue. *)
Fixpoint decisions (FragMaxTries : Z) (network : DownloadInfo -> VideoStatus)
    (n : nat) (st : fragThreadState) (w : World) : bool * fragThreadState * World :=
  match n with
  | O => ((true, st), w)
  | S n' =>
      let r := ContinueFragmentDownload FragMaxTries network st w in
      if fst (fst r) then decisions FragMaxTries network n' (snd (fst r)) (snd r)
      else r
  end.

(** A live stream with nothing finished, and a network that keeps
    reporting it live under a new URL. *)
Definition live_stream : World :=
  {| Info := {| Status := status_of true false false "http://x/sq/%d";
                Finished := ∅ |};
     Calls := [] |}.

Definition rotated_url (di : DownloadInfo) : VideoStatus :=
  status_of true false false "http://y/sq/%d".

(** * Properties *)

(** ** Integer wrap-around *)

Lemma pow_IntSize : 2 ^ GoInt.IntSize = 18446744073709551616.
Proof. reflexivity. Qed.

Lemma pow_IntSize_pred : 2 ^ (GoInt.IntSize - 1) = 9223372036854775808.
Proof. reflexivity. Qed.

Lemma wrap_id x : GoInt.in_range x -> GoInt.wrap x = x.
Proof.
  unfold GoInt.in_range, GoInt.wrap, GoInt.MinInt, GoInt.MaxInt.
  rewrite pow_IntSize, pow_IntSize_pred. intros H.
  rewrite Z.mod_small; lia.
Qed.

Lemma wrap_in_range x : GoInt.in_range (GoInt.wrap x).
Proof.
  unfold GoInt.in_range, GoInt.wrap, GoInt.MinInt, GoInt.MaxInt.
  rewrite pow_IntSize, pow_IntSize_pred.
  pose proof (Z.mod_pos_bound (x + 9223372036854775808) 18446744073709551616).
  lia.
Qed.

(** ** The length field never parses *)

Section ParseErrors.

Import Strconv.

Variables base cutoff maxVal : Z.

(** A byte that is no digit in any base makes the digit loop fail,
    whatever precedes it. *)
Lemma ParseUint_loop_nondigit (s1 : string) (c : ascii) (s2 : string) (n : Z) :
  digit_of (GoString.code c) = None ->
  exists v e, ParseUint_loop base cutoff maxVal (s1 +:+ String c s2) n = (v, Some e)
              /\ (e = ErrRange -> v = maxVal) /\ e <> ErrBase.
Proof.
  intros Hc. revert n.
  induction s1 as [|c1 s1 IH]; intros n; simpl.
  - rewrite Hc. exists 0, ErrSyntax. repeat split; congruence.
  - destruct (digit_of (GoString.code c1)) as [d|].
    + destruct (base <=? d).
      { exists 0, ErrSyntax. repeat split; congruence. }
      destruct (cutoff <=? n).
      { exists maxVal, ErrRange. repeat split; congruence. }
      destruct (_ || _).
      { exists maxVal, ErrRange. repeat split; congruence. }
      apply IH.
    + exists 0, ErrSyntax. repeat split; congruence.
Qed.

End ParseErrors.

Lemma ParseUint_nondigit (s1 : string) (c : ascii) (s2 : string) (base : Z) :
  Strconv.digit_of (GoString.code c) = None ->
  exists v e, Strconv.ParseUint (s1 +:+ String c s2) base 0 = (v, Some e)
              /\ (e = Strconv.ErrRange -> v = 2 ^ 64 - 1).
Proof.
  intros Hc. unfold Strconv.ParseUint.
  destruct (s1 +:+ String c s2) eqn:Ht.
  { destruct s1; discriminate. }
  rewrite <- Ht. destruct (_ && _).
  - destruct (ParseUint_loop_nondigit base
                (Strconv.maxUint64 / base + 1) (2 ^ GoInt.IntSize - 1) s1 c s2 0 Hc)
      as (v & e & Hv & Hr & _).
    exists v, e. split; [exact Hv | exact Hr].
  - exists 0, Strconv.ErrBase. split; [reflexivity | discriminate].
Qed.

Lemma ParseInt_signed_error (neg : bool) (v : Z) (e : Strconv.NumError) :
  (e = Strconv.ErrRange -> v = 2 ^ 64 - 1) ->
  snd (Strconv.ParseInt_signed neg 0 (v, Some e)) <> None.
Proof.
  intros Hr. destruct e; try (simpl; discriminate).
  rewrite (Hr eq_refl). destruct neg; vm_compute; discriminate.
Qed.

(** A string with a byte that is neither a digit nor a sign is refused by
    [ParseInt]. *)
Lemma ParseInt_nondigit (s1 : string) (c : ascii) (s2 : string) (base : Z) :
  Strconv.digit_of (GoString.code c) = None ->
  c <> "+"%char -> c <> "-"%char ->
  snd (Strconv.ParseInt (s1 +:+ String c s2) base 0) <> None.
Proof.
  intros Hc Hplus Hminus.
  destruct s1 as [|c0 s1].
  - change (EmptyString +:+ String c s2) with (String c s2).
    unfold Strconv.ParseInt.
    rewrite (proj2 (Ascii.eqb_neq c "+") Hplus), (proj2 (Ascii.eqb_neq c "-") Hminus).
    cbv beta iota zeta. change (false || false) with false. cbv iota.
    destruct (ParseUint_nondigit EmptyString c s2 base Hc) as (v & e & Hv & Hr).
    change (EmptyString +:+ String c s2) with (String c s2) in Hv.
    rewrite Hv. now apply ParseInt_signed_error.
  - change (String c0 s1 +:+ String c s2) with (String c0 (s1 +:+ String c s2)).
    unfold Strconv.ParseInt. cbv beta zeta.
    destruct (Ascii.eqb c0 "+" || Ascii.eqb c0 "-").
    + destruct (ParseUint_nondigit s1 c s2 base Hc) as (v & e & Hv & Hr).
      rewrite Hv. now apply ParseInt_signed_error.
    + destruct (ParseUint_nondigit (String c0 s1) c s2 base Hc) as (v & e & Hv & Hr).
      change (String c0 s1 +:+ String c s2) with (String c0 (s1 +:+ String c s2)) in Hv.
      rewrite Hv. now apply ParseInt_signed_error.
Qed.

(** The dump of a non-empty slice starts with the offset column and two
    blanks. *)
Lemma Dump_offset_column (b : byte) (rest : list byte) :
  exists tail, Hex.Dump (b :: rest) = "00000000" +:+ String " " tail.
Proof.
  eexists. unfold Hex.Dump, Hex.write. fold Hex.write.
  change (0 =? 0) with true. cbv iota.
  change (Hex.offset_column 0) with "00000000"%string.
  reflexivity.
Qed.

Lemma ParseInt_Dump_error (bs : list byte) :
  snd (Strconv.ParseInt (Hex.Dump bs) 16 0) <> None.
Proof.
  destruct bs as [|b rest].
  - simpl. discriminate.
  - destruct (Dump_offset_column b rest) as [tail ->].
    apply ParseInt_nondigit; [reflexivity | discriminate | discriminate].
Qed.

(** ** Atom scanner *)

Lemma GetAtoms_loop_first_break (fuel : nat) (data : list byte)
    (atoms : gmap string Atom) :
  Atoms.GetAtoms_loop (S fuel) data atoms 0 = Returns atoms.
Proof.
  cbn [Atoms.GetAtoms_loop].
  change (GoInt.add 0 8) with 8. change (GoInt.add 0 4) with 4.
  destruct (GoSlice.len data <? 8) eqn:Hlen; [reflexivity|].
  apply Z.ltb_ge in Hlen. unfold GoSlice.len in Hlen.
  unfold GoSlice.slice at 1.
  replace ((0 <=? 0) && (0 <=? 4) && (4 <=? Z.of_nat (length data))) with true
    by (symmetry; rewrite !andb_true_iff, !Z.leb_le; lia).
  pose proof (ParseInt_Dump_error (take (Z.to_nat (4 - 0)) (drop (Z.to_nat 0) data))) as Herr.
  destruct (Strconv.ParseInt _ 16 0) as [aLen err]. simpl in Herr.
  rewrite (bool_decide_eq_true_2 _ Herr). reflexivity.
Qed.

Lemma RemoveSidx_identity (fuel : nat) (data : list byte) :
  Atoms.RemoveSidx (S fuel) data = Returns data.
Proof.
  unfold Atoms.RemoveSidx, Atoms.GetAtoms.
  rewrite GetAtoms_loop_first_break, lookup_empty. reflexivity.
Qed.

(** C2. For every byte buffer [GetAtoms] returns the empty map: the dump
    of the four length bytes is a hexdump line, which [ParseInt] refuses
    in base 16, so the scan stops in its first iteration with no atom
    recorded; hence [RemoveSidx] returns every buffer as it is, whether it
    holds a well-formed [sidx] box or not. *)
Theorem GetAtoms_always_empty (data : list byte) (fuel : nat) :
  (forall bs : list byte, snd (Strconv.ParseInt (Hex.Dump bs) 16 0) <> None)
  /\ Atoms.GetAtoms (S fuel) data = Returns ∅
  /\ Atoms.RemoveSidx (S fuel) data = Returns data.
Proof.
  split; [exact ParseInt_Dump_error|].
  split; [apply GetAtoms_loop_first_break | apply RemoveSidx_identity].
Qed.

(** C1 (not met by the code). On the buffer [ftyp sidx moof mdat] with
    correct length prefixes, [RemoveSidx] returns the buffer with the
    [sidx] box still in it: the result is not the concatenation of the
    other three boxes and its length is not reduced by the 12 bytes the
    [sidx] box declares. *)
Theorem RemoveSidx_keeps_sidx_box :
  Atoms.RemoveSidx 8 fragment_with_sidx = Returns fragment_with_sidx
  /\ Atoms.RemoveSidx 8 fragment_with_sidx <> Returns fragment_without_sidx
  /\ length fragment_with_sidx = (length fragment_without_sidx + 12)%nat
  /\ GoSlice.slice fragment_with_sidx 12 16 = Some (be32 12)
  /\ GoSlice.slice fragment_with_sidx 16 20 = Some (list_byte_of_string "sidx").
Proof.
  split; [apply RemoveSidx_identity|].
  split.
  - rewrite RemoveSidx_identity. vm_compute. discriminate.
  - vm_compute. repeat split; reflexivity.
Qed.

(** ** Fragment worker state machine *)

(** Unfolds the operations on the collaborator and the monad. *)
Ltac run_di :=
  unfold ContinueFragmentDownload, HandleFragHttpError, HandleFragDownloadError,
    RefreshURL, bind, ret, IsFinished, IsLive, IsUnavailable, IsGVideoDDL,
    GetDownloadUrl, SetFinished, GetVideoInfo, PrintStatus, is_finished;
  cbn [fst snd Info Calls Status Finished].

(** Reduces projections of explicit records and boolean connectives. *)
Ltac di_simpl :=
  cbn [fst snd Info Calls Status Finished Live Unavailable GVideoDDL DownloadUrl
       Name DataType SeqNum Tries FullRetries MaxSeq Is403
       set_FullRetries set_Tries set_Is403 negb andb orb].

(** Settles [GoInt.in_range] of a literal. *)
Ltac in_range_solve := vm_compute; split; discriminate.

(** Splits the arguments into their fields and substitutes the equations
    on them. *)
Ltac di_fields w st :=
  destruct w as [[[live unavailable ddl urls] finished] calls];
  destruct st as [name dataType seqNum tries fullRetries maxSeq is403];
  cbn [fst snd Info Calls Status Finished Live Unavailable GVideoDDL DownloadUrl
       Name DataType SeqNum Tries FullRetries MaxSeq Is403] in *;
  subst.

Section WorkerProperties.

Variable FragMaxTries : Z.
Variable network : DownloadInfo -> VideoStatus.

Lemma RefreshURL_finished (dataType currentUrl : string) (w : World) :
  Finished (Info (snd (RefreshURL network dataType currentUrl w))) = Finished (Info w).
Proof. run_di. repeat case_match; reflexivity. Qed.

Lemma ContinueFragmentDownload_finished (st : fragThreadState) (w : World) :
  Finished (Info w)
  ⊆ Finished (Info (snd (ContinueFragmentDownload FragMaxTries network st w))).
Proof. run_di. repeat case_match; cbn [fst snd Info Calls Status Finished]; set_solver. Qed.

Lemma HandleFragHttpError_finished (st : fragThreadState) (code : Z)
    (url : string) (w : World) :
  Finished (Info w) ⊆ Finished (Info (snd (HandleFragHttpError network st code url w))).
Proof. run_di. repeat case_match; cbn [fst snd Info Calls Status Finished]; set_solver. Qed.

Lemma HandleFragDownloadError_finished (st : fragThreadState) (err : string)
    (w : World) :
  Finished (Info w) ⊆ Finished (Info (snd (HandleFragDownloadError st err w))).
Proof. run_di. repeat case_match; cbn [fst snd Info Calls Status Finished]; set_solver. Qed.

Lemma ContinueFragmentDownload_when_finished (st : fragThreadState) (w : World) :
  is_finished (DataType st) w = true ->
  ContinueFragmentDownload FragMaxTries network st w = ((false, st), w).
Proof. run_di. intros ->. reflexivity. Qed.

End WorkerProperties.

(** C3. Once the data type of a worker is marked finished,
    [ContinueFragmentDownload] answers stop and changes nothing; and the
    set of finished data types only grows under
    [ContinueFragmentDownload], [HandleFragHttpError],
    [HandleFragDownloadError] and [RefreshURL]: a finished flag never goes
    back to false. *)
Theorem finished_is_monotonic (FragMaxTries : Z)
    (network : DownloadInfo -> VideoStatus) (w : World) (st : fragThreadState) :
  (is_finished (DataType st) w = true ->
   ContinueFragmentDownload FragMaxTries network st w = ((false, st), w))
  /\ (forall (t : string) (code : Z) (url err dataType : string),
        is_finished t w = true ->
        is_finished t (snd (ContinueFragmentDownload FragMaxTries network st w)) = true
        /\ is_finished t (snd (HandleFragHttpError network st code url w)) = true
        /\ is_finished t (snd (HandleFragDownloadError st err w)) = true
        /\ is_finished t (snd (RefreshURL network dataType url w)) = true).
Proof.
  split; [apply ContinueFragmentDownload_when_finished|].
  intros t code url err dataType Ht. unfold is_finished in *.
  apply bool_decide_eq_true in Ht.
  pose proof (ContinueFragmentDownload_finished FragMaxTries network st w) as Hc.
  pose proof (HandleFragHttpError_finished network st code url w) as Hh.
  pose proof (HandleFragDownloadError_finished st err w) as Hd.
  rewrite (RefreshURL_finished network dataType url w).
  rewrite !bool_decide_eq_true.
  repeat split; [apply Hc | apply Hh | apply Hd | ]; exact Ht.
Qed.

Lemma finished_is_monotonic_witness :
  ContinueFragmentDownload 10 same_status (audio_worker 7 10 3 12 true)
    audio_finished_stream
  = ((false, audio_worker 7 10 3 12 true), audio_finished_stream).
Proof.
  apply (finished_is_monotonic 10 same_status audio_finished_stream
           (audio_worker 7 10 3 12 true)).
  vm_compute. reflexivity.
Defined.

Lemma refreshes_snoc_PrintStatus (di : DownloadInfo) (calls : list Call) :
  refreshes {| Info := di; Calls := calls ++ [CallPrintStatus] |}
  = refreshes {| Info := di; Calls := calls |}.
Proof.
  unfold refreshes. cbn [Calls]. rewrite List.filter_app, length_app.
  cbn. lia.
Qed.

Lemma refreshes_snoc_GetVideoInfo (di : DownloadInfo) (calls : list Call) :
  refreshes {| Info := di; Calls := calls ++ [CallGetVideoInfo] |}
  = S (refreshes {| Info := di; Calls := calls |}).
Proof.
  unfold refreshes. cbn [Calls]. rewrite List.filter_app, length_app.
  cbn. lia.
Qed.

Lemma refreshes_Info (di di' : DownloadInfo) (calls : list Call) :
  refreshes {| Info := di; Calls := calls |}
  = refreshes {| Info := di'; Calls := calls |}.
Proof. reflexivity. Qed.

(** C4. When the stream is not live, the video is unavailable, the last
    failure was a 403 and the tries have reached the ceiling,
    [ContinueFragmentDownload] answers stop and the data type of the
    worker is finished afterwards; no refresh is requested on the way.
    The same answer is given when the stream was live on entry and the
    refresh that the decision then requests reports it ended and
    unavailable. *)
Theorem revoked_access_stops (FragMaxTries : Z)
    (network : DownloadInfo -> VideoStatus) (w : World) (st : fragThreadState) :
  Is403 st = true ->
  FragMaxTries <= Tries st ->
  let r := ContinueFragmentDownload FragMaxTries network st w in
  (Live (Status (Info w)) = false ->
   Unavailable (Status (Info w)) = true ->
   fst (fst r) = false
   /\ is_finished (DataType st) (snd r) = true
   /\ refreshes (snd r) = refreshes w)
  /\ (Live (Status (Info w)) = true ->
      Live (network (Info w)) = false ->
      Unavailable (network (Info w)) = true ->
      fst (fst r) = false
      /\ is_finished (DataType st) (snd r) = true).
Proof.
  intros H403 Htries. di_fields w st.
  apply Z.leb_le in Htries. run_di. di_simpl.
  destruct (bool_decide (dataType ∈ finished)) eqn:Hfin; di_simpl.
  { rewrite Hfin. auto. }
  rewrite Htries. split.
  - intros -> ->. di_simpl.
    split; [reflexivity|]. split.
    + apply bool_decide_eq_true. set_solver.
    + rewrite (refreshes_Info _ (Build_DownloadInfo (Build_VideoStatus false true ddl urls) finished)).
      rewrite !refreshes_snoc_PrintStatus. reflexivity.
  - intros -> Hlive Hun. di_simpl. rewrite Hlive. di_simpl. rewrite Hun. di_simpl.
    split; [reflexivity|]. apply bool_decide_eq_true. set_solver.
Qed.

Lemma revoked_access_stops_witness :
  let r := ContinueFragmentDownload 10 same_status (audio_worker 5 10 3 12 true)
             revoked_stream in
  fst (fst r) = false
  /\ is_finished "audio" (snd r) = true
  /\ refreshes (snd r) = refreshes revoked_stream.
Proof.
  apply (revoked_access_stops 10 same_status revoked_stream (audio_worker 5 10 3 12 true));
    [reflexivity | cbn; lia | reflexivity | reflexivity].
Defined.

Lemma sub_in_range (a b : Z) :
  GoInt.in_range (a - b) -> GoInt.sub a b = a - b.
Proof. apply wrap_id. Qed.

Lemma sub_small (a b : Z) :
  GoInt.in_range a -> 0 <= b <= 2 -> -1 < a -> GoInt.sub a b = a - b.
Proof.
  unfold GoInt.in_range, GoInt.MinInt, GoInt.MaxInt.
  rewrite pow_IntSize_pred. intros Ha Hb Hpos. apply sub_in_range.
  unfold GoInt.in_range, GoInt.MinInt, GoInt.MaxInt.
  rewrite pow_IntSize_pred. lia.
Qed.

Lemma len_zero (s : string) : (GoString.len s =? 0) = true <-> s = EmptyString.
Proof.
  unfold GoString.len. rewrite Z.eqb_eq. destruct s; cbn [String.length]; split;
    intros H; try reflexivity; try discriminate; lia.
Qed.

(** C5 (as the code has it). In a non-live, not-finished state that is
    not the revoked-access case (unavailable with a 403), with [maxSeq]
    known, [seqNum <= maxSeq - 3], the tries at the ceiling and more than
    one full retry left on entry (so that one is left after the
    decrement), [ContinueFragmentDownload] answers continue, marks nothing
    finished, leaves [tries] as it is and only takes one from
    [fullRetries]. *)
Theorem retry_beyond_ceiling (FragMaxTries : Z)
    (network : DownloadInfo -> VideoStatus) (w : World) (st : fragThreadState) :
  GoInt.in_range (MaxSeq st) ->
  GoInt.in_range (FullRetries st) ->
  is_finished (DataType st) w = false ->
  Live (Status (Info w)) = false ->
  Unavailable (Status (Info w)) && Is403 st = false ->
  -1 < MaxSeq st ->
  SeqNum st <= MaxSeq st - 3 ->
  FragMaxTries <= Tries st ->
  1 < FullRetries st ->
  let r := ContinueFragmentDownload FragMaxTries network st w in
  fst r = (true, set_FullRetries (FullRetries st - 1) st)
  /\ Info (snd r) = Info w
  /\ is_finished (DataType st) (snd r) = false
  /\ Tries (snd (fst r)) = Tries st.
Proof.
  intros Hmax Hfull Hfin Hlive Hrev Hknown Hseq Htries Hretries.
  di_fields w st. unfold is_finished in Hfin. cbn [Info Finished] in Hfin.
  apply Z.leb_le in Htries. run_di. di_simpl.
  rewrite Hfin, Htries. di_simpl. rewrite Hrev.
  rewrite (sub_small maxSeq 2) by (assumption || lia).
  rewrite (sub_small fullRetries 1) by (assumption || lia).
  replace (-1 <? maxSeq) with true by (symmetry; apply Z.ltb_lt; lia).
  replace (seqNum <? maxSeq - 2) with true by (symmetry; apply Z.ltb_lt; lia).
  replace (0 <? fullRetries - 1) with true by (symmetry; apply Z.ltb_lt; lia).
  di_simpl. rewrite Hfin. repeat split; reflexivity.
Qed.

Lemma retry_beyond_ceiling_witness :
  let r := ContinueFragmentDownload 10 same_status (audio_worker 5 10 2 12 false)
             ended_stream in
  fst r = (true, audio_worker 5 10 1 12 false)
  /\ Info (snd r) = Info ended_stream
  /\ is_finished "audio" (snd r) = false
  /\ Tries (snd (fst r)) = 10.
Proof.
  apply (retry_beyond_ceiling 10 same_status ended_stream (audio_worker 5 10 2 12 false));
    try reflexivity; try (cbn; lia); in_range_solve.
Defined.

(** C5 as stated fails: with one full retry left on entry the decrement
    leaves none, and the worker is stopped and its data type marked
    finished although [seqNum <= maxSeq - 3]. *)
Lemma last_full_retry_is_refused :
  ~ (forall (w : World) (st : fragThreadState),
        is_finished (DataType st) w = false ->
        Live (Status (Info w)) = false ->
        -1 < MaxSeq st ->
        SeqNum st <= MaxSeq st - 3 ->
        10 <= Tries st ->
        0 < FullRetries st ->
        let r := ContinueFragmentDownload 10 same_status st w in
        fst (fst r) = true
        /\ is_finished (DataType st) (snd r) = false
        /\ Tries (snd (fst r)) = Tries st).
Proof.
  intros H.
  destruct (H ended_stream (audio_worker 5 10 1 12 false)) as [Hcontinue _];
    try reflexivity; try (cbn; lia).
  vm_compute in Hcontinue. discriminate.
Qed.

(** The revoked-access case comes first in the code: with the video
    unavailable and a 403, the worker is stopped even when
    [seqNum <= maxSeq - 3] and several full retries are left. *)
Lemma revoked_access_overrides_retry :
  let r := ContinueFragmentDownload 10 same_status (audio_worker 5 10 3 12 true)
             revoked_stream in
  fst (fst r) = false /\ is_finished "audio" (snd r) = true.
Proof. vm_compute. split; reflexivity. Qed.

(** What [HandleFragHttpError] does on a 404, in one equation. *)
Lemma HandleFragHttpError_404 (network : DownloadInfo -> VideoStatus)
    (w : World) (st : fragThreadState) (url : string) :
  GoInt.in_range (MaxSeq st) ->
  HandleFragHttpError network st StatusNotFound url w
  = if (-1 <? MaxSeq st) && negb (Live (Status (Info w)))
       && (MaxSeq st - 2 <? SeqNum st)
    then (st, {| Info := {| Status := Status (Info w);
                            Finished := {[ DataType st ]} ∪ Finished (Info w) |};
                 Calls := (Calls w ++ [CallPrintStatus]) ++ [CallPrintStatus] |})
    else (st, {| Info := Info w; Calls := Calls w ++ [CallPrintStatus] |}).
Proof.
  intros Hmax. run_di. change (StatusNotFound =? StatusForbidden) with false.
  change (StatusNotFound =? StatusNotFound) with true. cbn [andb].
  destruct (-1 <? MaxSeq st) eqn:Hknown; cbn [andb]; [|reflexivity].
  apply Z.ltb_lt in Hknown.
  rewrite (sub_small (MaxSeq st) 2) by (assumption || lia).
  di_simpl.
  destruct (Live (Status (Info w))); di_simpl; [reflexivity|].
  destruct (MaxSeq st - 2 <? SeqNum st); reflexivity.
Qed.

(** C6 (as the code has it). On a 404, [HandleFragHttpError] marks the
    data type finished when [maxSeq] is known, the stream is not live and
    [seqNum > maxSeq - 2], that is when the fragment is one of the last
    two; in every other case the 404 changes neither the worker nor the
    collaborator's record. A worker at [seqNum = 11] with [maxSeq = 12],
    not live, becomes finished; workers at [seqNum = 10] and [seqNum = 5]
    stay as they are. *)
Theorem not_found_in_last_two (network : DownloadInfo -> VideoStatus)
    (w : World) (st : fragThreadState) (url : string) :
  GoInt.in_range (MaxSeq st) ->
  let r := HandleFragHttpError network st StatusNotFound url w in
  fst r = st
  /\ Status (Info (snd r)) = Status (Info w)
  /\ (-1 < MaxSeq st -> Live (Status (Info w)) = false ->
      MaxSeq st - 2 < SeqNum st ->
      Finished (Info (snd r)) = {[ DataType st ]} ∪ Finished (Info w))
  /\ (~ (-1 < MaxSeq st /\ Live (Status (Info w)) = false
         /\ MaxSeq st - 2 < SeqNum st) ->
      Info (snd r) = Info w)
  /\ (MaxSeq st = 12 -> SeqNum st = 11 -> Live (Status (Info w)) = false ->
      is_finished (DataType st) (snd r) = true)
  /\ (MaxSeq st = 12 -> SeqNum st = 10 \/ SeqNum st = 5 ->
      Info (snd r) = Info w).
Proof.
  intros Hmax. cbv zeta. rewrite HandleFragHttpError_404 by assumption.
  destruct (-1 <? MaxSeq st) eqn:Hknown;
    destruct (Live (Status (Info w))) eqn:Hlive;
    destruct (MaxSeq st - 2 <? SeqNum st) eqn:Hseq;
    cbn [negb andb fst snd Info Status Finished];
    rewrite ?Z.ltb_lt, ?Z.ltb_ge in *;
    (repeat split; try reflexivity; try (intros; exfalso; lia);
       try (intros; discriminate)).
  all: try (intros Hn; exfalso; apply Hn; repeat split; (reflexivity || lia)).
  all: try (intros; apply bool_decide_eq_true; set_solver).
  all: destruct w as [[s f] c]; reflexivity.
Qed.

Lemma not_found_in_last_two_witness :
  is_finished "audio"
    (snd (HandleFragHttpError same_status (audio_worker 11 0 3 12 false)
            StatusNotFound "http://x/sq/11" ended_stream)) = true.
Proof.
  apply (not_found_in_last_two same_status ended_stream
           (audio_worker 11 0 3 12 false) "http://x/sq/11");
    [in_range_solve | reflexivity | reflexivity | reflexivity].
Defined.

(** C6 as stated fails on its own example: a worker at [seqNum = 10] with
    [maxSeq = 12], not live, is not finished by a 404. *)
Lemma not_found_third_from_last_stays :
  ~ (forall (w : World) (st : fragThreadState) (url : string),
        MaxSeq st = 12 -> SeqNum st = 10 -> Live (Status (Info w)) = false ->
        is_finished (DataType st)
          (snd (HandleFragHttpError same_status st StatusNotFound url w)) = true).
Proof.
  intros H.
  specialize (H ended_stream (audio_worker 10 0 3 12 false) "http://x/sq/10"
                eq_refl eq_refl eq_refl).
  vm_compute in H. discriminate.
Qed.

(** What [HandleFragDownloadError] does, in one equation. *)
Lemma HandleFragDownloadError_eq (w : World) (st : fragThreadState) (err : string) :
  GoInt.in_range (MaxSeq st) ->
  HandleFragDownloadError st err w
  = if (-1 <? MaxSeq st) && negb (Live (Status (Info w)))
       && (MaxSeq st - 2 <=? SeqNum st)
    then (st, {| Info := {| Status := Status (Info w);
                            Finished := {[ DataType st ]} ∪ Finished (Info w) |};
                 Calls := (Calls w ++ [CallPrintStatus]) ++ [CallPrintStatus] |})
    else (st, {| Info := Info w; Calls := Calls w ++ [CallPrintStatus] |}).
Proof.
  intros Hmax. run_di.
  destruct (-1 <? MaxSeq st) eqn:Hknown; cbn [andb]; [|reflexivity].
  apply Z.ltb_lt in Hknown.
  rewrite (sub_small (MaxSeq st) 2) by (assumption || lia).
  di_simpl.
  destruct (Live (Status (Info w))); di_simpl; [reflexivity|].
  destruct (MaxSeq st - 2 <=? SeqNum st); reflexivity.
Qed.

(** C7. On a transport error, [HandleFragDownloadError] marks the data
    type of the worker finished exactly when the stream is not live,
    [maxSeq] is known and [seqNum] is within 2 of it ([seqNum >= maxSeq -
    2]: the worker trails the highest known fragment by at most two); in
    every other case the finished set and the rest of the record are
    unchanged. The worker state is returned unchanged in every case. *)
Theorem transport_error_near_end (w : World) (st : fragThreadState) (err : string) :
  GoInt.in_range (MaxSeq st) ->
  let r := HandleFragDownloadError st err w in
  fst r = st
  /\ Status (Info (snd r)) = Status (Info w)
  /\ (Live (Status (Info w)) = false /\ -1 < MaxSeq st
      /\ MaxSeq st - 2 <= SeqNum st ->
      Finished (Info (snd r)) = {[ DataType st ]} ∪ Finished (Info w))
  /\ (~ (Live (Status (Info w)) = false /\ -1 < MaxSeq st
         /\ MaxSeq st - 2 <= SeqNum st) ->
      Info (snd r) = Info w).
Proof.
  intros Hmax. cbv zeta. rewrite HandleFragDownloadError_eq by assumption.
  destruct (-1 <? MaxSeq st) eqn:Hknown;
    destruct (Live (Status (Info w))) eqn:Hlive;
    destruct (MaxSeq st - 2 <=? SeqNum st) eqn:Hseq;
    cbn [negb andb fst snd Info Status Finished];
    rewrite ?Z.ltb_lt, ?Z.ltb_ge, ?Z.leb_le, ?Z.leb_gt in *;
    (repeat split; try reflexivity;
       try (intros (? & ? & ?); exfalso; (discriminate || lia))).
  all: try (intros Hn; exfalso; apply Hn; repeat split; (reflexivity || lia)).
  all: destruct w as [[s f] c]; reflexivity.
Qed.

Lemma transport_error_near_end_witness :
  let r := HandleFragDownloadError (audio_worker 10 0 3 12 false)
             "connection reset" ended_stream in
  fst r = audio_worker 10 0 3 12 false
  /\ Finished (Info (snd r)) = {[ "audio"%string ]} ∪ Finished (Info ended_stream).
Proof.
  destruct (transport_error_near_end ended_stream (audio_worker 10 0 3 12 false)
              "connection reset") as (Hst & _ & Hfin & _);
    [in_range_solve|].
  split; [exact Hst|].
  apply Hfin. repeat split; (reflexivity || (cbn; lia)).
Defined.

(** ** URL refresh *)

(** What [RefreshURL] does, in one equation. *)
Lemma RefreshURL_eq (network : DownloadInfo -> VideoStatus)
    (dataType currentUrl : string) (w : World) :
  RefreshURL network dataType currentUrl w
  = if negb (GVideoDDL (Status (Info w)))
       && ((GoString.len currentUrl =? 0)
           || String.eqb (DownloadUrl (Status (Info w)) dataType) currentUrl)
    then (tt, {| Info := {| Status := network (Info w);
                            Finished := Finished (Info w) |};
                 Calls := (Calls w ++ [CallPrintStatus]) ++ [CallGetVideoInfo] |})
    else (tt, w).
Proof.
  run_di. destruct (GVideoDDL (Status (Info w))); di_simpl; [reflexivity|].
  destruct (_ || _); reflexivity.
Qed.

(** C8. [RefreshURL] calls [GetVideoInfo] (once) if and only if the
    collaborator is not in direct-download-link mode and either the URL
    just used is empty or it equals the URL the collaborator currently has
    for the data type; otherwise it calls nothing, and in
    direct-download-link mode it leaves everything as it is. *)
Theorem RefreshURL_requests_refresh (network : DownloadInfo -> VideoStatus)
    (dataType currentUrl : string) (w : World) :
  let r := RefreshURL network dataType currentUrl w in
  (refreshes (snd r) = S (refreshes w)
   <-> GVideoDDL (Status (Info w)) = false
       /\ (currentUrl = EmptyString
           \/ DownloadUrl (Status (Info w)) dataType = currentUrl))
  /\ (refreshes (snd r) <> S (refreshes w) -> snd r = w)
  /\ (GVideoDDL (Status (Info w)) = true -> snd r = w).
Proof.
  cbv zeta. rewrite RefreshURL_eq.
  destruct (GVideoDDL (Status (Info w))) eqn:Hddl; cbn [negb andb snd].
  { split; [split|split; reflexivity].
    - intros Hr. lia.
    - intros [Hf _]. discriminate. }
  destruct w as [di calls]. cbn [Info Calls] in *.
  pose proof (refreshes_snoc_GetVideoInfo di (calls ++ [CallPrintStatus])) as Hcount.
  rewrite refreshes_snoc_PrintStatus in Hcount.
  rewrite (refreshes_Info _ {| Status := network di; Finished := Finished di |})
    in Hcount.
  destruct (GoString.len currentUrl =? 0) eqn:Hlen; cbn [orb snd].
  - apply len_zero in Hlen.
    split; [split; auto|]. split; [intros Hn; contradiction | discriminate].
  - destruct (String.eqb _ currentUrl) eqn:Heq; cbn [snd].
    + apply String.eqb_eq in Heq.
      split; [split; auto|]. split; [intros Hn; contradiction | discriminate].
    + apply String.eqb_neq in Heq.
      assert (Hne : currentUrl <> EmptyString).
      { intros ->. cbn in Hlen. discriminate. }
      split; [split|split; [reflexivity | discriminate]].
      * intros Hr. lia.
      * intros (_ & [Hc | Hc]); contradiction.
Qed.

Lemma RefreshURL_requests_refresh_witness :
  refreshes (snd (RefreshURL same_status "audio" "http://x/sq/%d" ended_stream))
  = S (refreshes ended_stream)
  /\ snd (RefreshURL same_status "audio" "http://x/sq/%d" ddl_stream) = ddl_stream.
Proof.
  split.
  - apply (RefreshURL_requests_refresh same_status "audio" "http://x/sq/%d" ended_stream).
    split; [reflexivity | right; reflexivity].
  - apply (RefreshURL_requests_refresh same_status "audio" "http://x/sq/%d" ddl_stream).
    reflexivity.
Defined.

(** ** Manifest parser *)

Lemma ReplaceAll_percent (s : string) :
  GoString.ReplaceAll s "%" "%%" = double_percent s.
Proof.
  unfold GoString.ReplaceAll.
  induction s as [|c s IH]; [reflexivity|].
  cbn [GoString.replace_from GoString.HasPrefix double_percent String.length Nat.sub].
  destruct (Ascii.eqb c "%"); rewrite IH; reflexivity.
Qed.

Lemma usable_functional (r : Representation) (i j : Z) :
  usable r i -> usable r j -> i = j.
Proof. intros [Hi _] [Hj _]. congruence. Qed.

Lemma add_representation_usable (urls : gmap Z string) (r : Representation) (itag : Z) :
  usable r itag ->
  add_representation urls r = <[itag := url_template r]> urls.
Proof.
  intros (Hid & Hpos & Hurl). unfold add_representation. rewrite Hid.
  rewrite bool_decide_eq_false_2 by (intros H; apply H; reflexivity).
  replace (0 <? itag) with true by (symmetry; apply Z.ltb_lt; assumption).
  replace (0 <? GoString.len (BaseURL r)) with true.
  - cbn [andb]. rewrite ReplaceAll_percent. reflexivity.
  - symmetry. apply Z.ltb_lt. unfold GoString.len.
    destruct (BaseURL r); [contradiction | cbn [String.length]; lia].
Qed.

Lemma add_representation_skipped (urls : gmap Z string) (r : Representation) :
  (forall itag, ~ usable r itag) ->
  add_representation urls r = urls.
Proof.
  intros Hskip. unfold add_representation.
  destruct (Strconv.Atoi (Id r)) as [itag err] eqn:Hid.
  destruct err as [e|].
  { rewrite bool_decide_eq_true_2 by discriminate. reflexivity. }
  rewrite bool_decide_eq_false_2 by (intros H; apply H; reflexivity).
  destruct (0 <? itag) eqn:Hpos; cbn [andb]; [|reflexivity].
  destruct (0 <? GoString.len (BaseURL r)) eqn:Hlen; [|reflexivity].
  exfalso. apply (Hskip itag). split; [exact Hid|]. split.
  - now apply Z.ltb_lt.
  - intros Hempty. rewrite Hempty in Hlen. discriminate.
Qed.

Lemma usable_or_skipped (r : Representation) :
  (exists itag, usable r itag) \/ (forall itag, ~ usable r itag).
Proof.
  destruct (Strconv.Atoi (Id r)) as [itag err] eqn:Hid.
  destruct err as [e|].
  { right. intros i (Hi & _). congruence. }
  destruct (Z_lt_dec 0 itag) as [Hpos|Hpos].
  - destruct (BaseURL r) as [|c base] eqn:Hurl.
    + right. intros i (_ & _ & Hne). apply Hne. assumption.
    + left. exists itag. unfold usable. rewrite Hurl.
      split; [exact Hid|]. split; [assumption | discriminate].
  - right. intros i (Hi & Hi' & _). assert (i = itag) by congruence. lia.
Qed.

Lemma snoc_decompose {A} (pre post l : list A) (r x : A) :
  pre ++ r :: post = l ++ [x] ->
  (post = [] /\ pre = l /\ r = x)
  \/ (exists post', post = post' ++ [x] /\ l = pre ++ r :: post').
Proof.
  intros H. destruct post as [|p post] using rev_ind.
  - left. apply app_inj_tail in H. destruct H as [-> ->]. auto.
  - right. exists post. clear IHpost.
    change (pre ++ r :: post ++ [p]) with (pre ++ (r :: post) ++ [p]) in H.
    rewrite app_assoc in H. apply app_inj_tail in H. destruct H as [<- ->]. auto.
Qed.

(** The map built by the loop: the template of the last usable entry of
    each itag. *)
Lemma urls_of_representations_lookup (reps : list Representation) (k : Z) (t : string) :
  urls_of_representations reps !! k = Some t
  <-> exists pre r post,
        reps = pre ++ r :: post /\ usable r k /\ t = url_template r
        /\ (forall r', r' ∈ post -> ~ usable r' k).
Proof.
  revert t. induction reps as [|r0 reps IH] using rev_ind; intros t.
  - unfold urls_of_representations. cbn [fold_left]. rewrite lookup_empty.
    split; [discriminate|]. intros (pre & r & post & H & _).
    destruct pre; discriminate.
  - unfold urls_of_representations in *. rewrite fold_left_app. cbn [fold_left].
    assert (Hother : ~ usable r0 k ->
              fold_left add_representation reps ∅ !! k = Some t
              <-> exists pre r post,
                    reps ++ [r0] = pre ++ r :: post /\ usable r k
                    /\ t = url_template r
                    /\ (forall r', r' ∈ post -> ~ usable r' k)).
    { intros Hr0. rewrite IH. split.
      - intros (pre & r & post & -> & Hu & Ht & Hlater).
        exists pre, r, (post ++ [r0]).
        split; [|split; [assumption|split; [assumption|]]].
        + rewrite <- app_assoc. reflexivity.
        + intros r' Hin. apply elem_of_app in Hin. destruct Hin as [Hin|Hin].
          * now apply Hlater.
          * apply list_elem_of_singleton in Hin. now subst.
      - intros (pre & r & post & Heq & Hu & Ht & Hlater).
        symmetry in Heq. apply snoc_decompose in Heq.
        destruct Heq as [(-> & -> & ->) | (post' & -> & ->)].
        + contradiction.
        + exists pre, r, post'.
          split; [reflexivity|split; [assumption|split; [assumption|]]].
          intros r' Hin. apply Hlater. apply elem_of_app. now left. }
    destruct (usable_or_skipped r0) as [[k0 Hk0] | Hskip].
    + rewrite (add_representation_usable _ r0 k0 Hk0).
      destruct (decide (k0 = k)) as [->|Hne].
      * rewrite lookup_insert_eq. split.
        -- intros [= <-]. exists reps, r0, [].
           split; [reflexivity|split; [assumption|split; [reflexivity|]]].
           intros r' Hin. inversion Hin.
        -- intros (pre & r & post & Heq & Hu & Ht & Hlater).
           symmetry in Heq. apply snoc_decompose in Heq.
           destruct Heq as [(-> & -> & ->) | (post' & -> & ->)].
           ++ now subst.
           ++ exfalso. apply (Hlater r0); [|assumption].
              apply elem_of_app. right. now apply list_elem_of_singleton.
      * rewrite lookup_insert_ne by assumption. apply Hother.
        intros Hu. apply Hne. now apply (usable_functional r0).
    + rewrite (add_representation_skipped _ r0 Hskip). apply Hother, Hskip.
Qed.

Lemma representation_140_usable : usable representation_140 140.
Proof.
  unfold usable. split; [vm_compute; reflexivity|].
  split; [lia | discriminate].
Qed.

(** C10. The map returned by [GetUrlsFromManifest] holds, for an itag [k],
    exactly the template of the last decoded representation that is not
    skipped and whose id is [k]: entries whose id does not parse as a
    positive integer or whose base URL is empty contribute nothing, the
    template is the base URL with every percent doubled followed by the
    fixed suffix, and a later entry of the same itag replaces an earlier
    one. The representation with id 140 and base URL [http://x/y?a=1%b]
    gives the template [http://x/y?a=1%%bsq/%d] for itag 140. *)
Theorem GetUrlsFromManifest_templates
    (xml_Unmarshal : list byte -> option (list Representation))
    (manifest : list byte) (k : Z) (t : string) :
  (GetUrlsFromManifest xml_Unmarshal manifest !! k = Some t
   <-> exists reps pre r post,
         xml_Unmarshal manifest = Some reps
         /\ reps = pre ++ r :: post /\ usable r k /\ t = url_template r
         /\ (forall r', r' ∈ post -> ~ usable r' k))
  /\ (xml_Unmarshal manifest = Some [representation_140] ->
      GetUrlsFromManifest xml_Unmarshal manifest
      = {[ 140 := "http://x/y?a=1%%bsq/%d"%string ]})
  /\ usable representation_140 140
  /\ url_template representation_140 = "http://x/y?a=1%%bsq/%d"%string.
Proof.
  split; [|split; [|split]].
  - unfold GetUrlsFromManifest.
    destruct (xml_Unmarshal manifest) as [reps|].
    + rewrite urls_of_representations_lookup. split.
      * intros (pre & r & post & H). exists reps, pre, r, post. auto.
      * intros (reps' & pre & r & post & [= <-] & H). exists pre, r, post. auto.
    + rewrite lookup_empty. split; [discriminate|].
      intros (reps' & pre & r & post & H & _). discriminate.
  - intros Hxml. unfold GetUrlsFromManifest. rewrite Hxml.
    unfold urls_of_representations. cbn [fold_left].
    rewrite (add_representation_usable ∅ representation_140 140).
    + reflexivity.
    + exact representation_140_usable.
  - exact representation_140_usable.
  - reflexivity.
Qed.

Lemma GetUrlsFromManifest_templates_witness :
  GetUrlsFromManifest (fun _ => Some [representation_140]) [] !! 140
  = Some "http://x/y?a=1%%bsq/%d"%string.
Proof.
  apply (GetUrlsFromManifest_templates (fun _ => Some [representation_140]) [] 140
           "http://x/y?a=1%%bsq/%d").
  exists [representation_140], [], representation_140, [].
  split; [reflexivity|]. split; [reflexivity|].
  split; [exact representation_140_usable|].
  split; [reflexivity|]. intros r' Hin. inversion Hin.
Defined.

(** ** Direct-URL parser *)

Lemma append_cons (c : ascii) (a b : string) :
  String c a +:+ b = String c (a +:+ b).
Proof. reflexivity. Qed.

Lemma HasPrefix_true (s p : string) :
  GoString.HasPrefix s p = true <-> exists t, s = p +:+ t.
Proof.
  revert s. induction p as [|c p IH]; intros s; cbn [GoString.HasPrefix].
  - split; [intros _; exists s; reflexivity | reflexivity].
  - destruct s as [|d s].
    + split; [discriminate | intros [t Ht]; discriminate].
    + destruct (Ascii.eqb_spec d c) as [->|Hne].
      * rewrite IH. split; intros [t Ht]; exists t.
        -- rewrite append_cons. now rewrite Ht.
        -- rewrite append_cons in Ht. now injection Ht.
      * split; [discriminate|]. intros [t Ht]. rewrite append_cons in Ht. congruence.
Qed.

Lemma take_append (pre rest : string) :
  GoString.take (String.length pre) (pre +:+ rest) = pre.
Proof.
  induction pre as [|c pre IH]; [reflexivity|].
  cbn [String.length GoString.take]. rewrite append_cons, IH. reflexivity.
Qed.

(** [strings.Index] finds the first occurrence, and answers [-1] only when
    there is none. *)
Lemma Index_from_spec (s sub : string) (i : Z) :
  (GoString.Index_from i s sub = -1 /\ 0 <= i ->
   forall pre post, s <> pre +:+ sub +:+ post)
  /\ ((exists pre post, s = pre +:+ sub +:+ post) ->
      exists pre post,
        s = pre +:+ sub +:+ post
        /\ GoString.Index_from i s sub = i + GoString.len pre
        /\ (forall pre' post', s = pre' +:+ sub +:+ post' ->
            (String.length pre <= String.length pre')%nat)).
Proof.
  revert i. induction s as [|c s IH]; intros i.
  - cbn [GoString.Index_from].
    destruct (GoString.HasPrefix EmptyString sub) eqn:Hp.
    + apply HasPrefix_true in Hp. destruct Hp as [t Ht]. split.
      * intros [H Hi]. lia.
      * intros _. exists EmptyString, t. split; [exact Ht|].
        split; [unfold GoString.len; cbn; lia|]. intros; cbn; lia.
    + assert (Hnone : forall pre post, EmptyString <> pre +:+ sub +:+ post).
      { intros pre post H. destruct pre; [|discriminate].
        assert (GoString.HasPrefix EmptyString sub = true)
          by (apply HasPrefix_true; exists post; exact H).
        congruence. }
      split; [intros _; exact Hnone|].
      intros (pre & post & H). exfalso. now apply (Hnone pre post).
  - cbn [GoString.Index_from].
    destruct (GoString.HasPrefix (String c s) sub) eqn:Hp.
    + apply HasPrefix_true in Hp. destruct Hp as [t Ht]. split.
      * intros [H Hi]. lia.
      * intros _. exists EmptyString, t. split; [exact Ht|].
        split; [unfold GoString.len; cbn; lia|]. intros; cbn; lia.
    + assert (Hhead : forall pre post,
                 String c s = pre +:+ sub +:+ post ->
                 exists pre', pre = String c pre' /\ s = pre' +:+ sub +:+ post).
      { intros pre post H. destruct pre as [|d pre].
        - assert (GoString.HasPrefix (String c s) sub = true)
            by (apply HasPrefix_true; exists post; exact H).
          congruence.
        - rewrite append_cons in H. injection H as -> ->. eauto. }
      destruct (IH (i + 1)) as [IHnone IHsome]. split.
      * intros [H Hi] pre post Hs.
        destruct (Hhead pre post Hs) as (pre' & -> & Hs').
        assert (Hi' : 0 <= i + 1) by lia.
        apply (IHnone (conj H Hi') pre' post Hs').
      * intros (pre & post & Hs).
        destruct (Hhead pre post Hs) as (pre' & -> & Hs').
        destruct IHsome as (p & q & Hpq & Hidx & Hmin); [eauto|].
        exists (String c p), q. split; [rewrite append_cons; now f_equal|].
        split.
        -- rewrite Hidx. unfold GoString.len. cbn [String.length]. lia.
        -- intros p' q' Hs2. destruct (Hhead p' q' Hs2) as (p'' & -> & Hs2').
           cbn [String.length]. apply le_n_S. now apply (Hmin p'' q').
Qed.

Lemma Index_found (s sub : string) :
  0 <= GoString.Index s sub ->
  exists pre post,
    s = pre +:+ sub +:+ post
    /\ GoString.take (Z.to_nat (GoString.Index s sub)) s = pre
    /\ (forall pre' post', s = pre' +:+ sub +:+ post' ->
        (String.length pre <= String.length pre')%nat).
Proof.
  intros Hpos. unfold GoString.Index in *.
  destruct (Index_from_spec s sub 0) as [Hnone Hsome].
  assert (Hex : exists pre post, s = pre +:+ sub +:+ post).
  { destruct (GoString.Index_from 0 s sub =? -1) eqn:Hminus.
    - apply Z.eqb_eq in Hminus. lia.
    - clear Hnone Hminus.
      assert (Hgen : forall t j, 0 <= j -> 0 <= GoString.Index_from j t sub ->
                 exists pre post, t = pre +:+ sub +:+ post).
      { clear. induction t as [|c t IH]; intros j Hj H; cbn [GoString.Index_from] in H.
        - destruct (GoString.HasPrefix EmptyString sub) eqn:Hp; [|lia].
          apply HasPrefix_true in Hp. destruct Hp as [u Hu].
          exists EmptyString, u. exact Hu.
        - destruct (GoString.HasPrefix (String c t) sub) eqn:Hp.
          + apply HasPrefix_true in Hp. destruct Hp as [u Hu].
            exists EmptyString, u. exact Hu.
          + assert (Hj' : 0 <= j + 1) by lia.
            destruct (IH (j + 1) Hj' H) as (p & q & ->).
            exists (String c p), q. reflexivity. }
      apply (Hgen s 0); [lia | assumption]. }
  destruct (Hsome Hex) as (pre & post & Hs & Hidx & Hmin).
  exists pre, post. split; [exact Hs|]. split; [|exact Hmin].
  rewrite Hidx. unfold GoString.len. rewrite Z.add_0_l, Nat2Z.id.
  rewrite Hs at 1. apply take_append.
Qed.

Lemma Index_missing (s sub : string) :
  GoString.Index s sub < 0 -> forall pre post, s <> pre +:+ sub +:+ post.
Proof.
  intros Hneg pre post Hs. unfold GoString.Index in Hneg.
  destruct (Index_from_spec s sub 0) as [_ Hsome].
  destruct Hsome as (p & q & _ & Hidx & _); [eauto|].
  unfold GoString.len in Hidx. lia.
Qed.

Section GvideoUrlProperties.

Variables DtypeAudio DtypeVideo : string.
Variable AudioItag : Z.
Variable url_Parse : string -> option URL.
Variable ToLower : string -> string.

(** The checks of [ParseGvideoUrl] after a successful [url.Parse], in one
    equation. *)
Lemma ParseGvideoUrl_parsed (gvUrl dataType : string) (u : URL) :
  url_Parse gvUrl = Some u ->
  ParseGvideoUrl DtypeAudio DtypeVideo AudioItag url_Parse ToLower gvUrl dataType
  = let (itag, err) := Strconv.Atoi (Values_Get (Query u) "itag") in
    if bool_decide (err = None)
       && GoString.HasSuffix (ToLower (Hostname u)) ".googlevideo.com"
       && bool_decide (is_Some (Query u !! "noclen"%string))
       && negb (String.eqb dataType DtypeAudio && negb (itag =? AudioItag))
       && negb (String.eqb dataType DtypeVideo && (itag =? AudioItag))
       && (0 <=? GoString.Index gvUrl "&sq=")
    then (GoString.take (Z.to_nat (GoString.Index gvUrl "&sq=")) gvUrl +:+ "&sq=%s",
          itag)
    else (EmptyString, 0).
Proof.
  intros Hparse. unfold ParseGvideoUrl. rewrite Hparse.
  destruct (Strconv.Atoi _) as [itag [e|]].
  { rewrite bool_decide_eq_true_2 by discriminate.
    rewrite (bool_decide_eq_false_2 (Some e = None)) by discriminate. reflexivity. }
  rewrite (bool_decide_eq_false_2 (None <> None)) by (intros H; now apply H).
  rewrite (bool_decide_eq_true_2 (None = None)) by reflexivity. cbn [andb].
  destruct (GoString.HasSuffix _ _); cbn [negb andb]; [|reflexivity].
  destruct (Query u !! "noclen"%string) as [v|] eqn:Hnoclen.
  - rewrite bool_decide_eq_false_2 by discriminate.
    rewrite bool_decide_eq_true_2 by eauto. cbn [andb].
    destruct (String.eqb dataType DtypeAudio && negb (itag =? AudioItag));
      cbn [negb andb]; [reflexivity|].
    destruct (String.eqb dataType DtypeVideo && (itag =? AudioItag));
      cbn [negb andb]; [reflexivity|].
    destruct (Z.ltb_spec (GoString.Index gvUrl "&sq=") 0) as [Hlt|Hge].
    + replace (0 <=? GoString.Index gvUrl "&sq=") with false
        by (symmetry; apply Z.leb_gt; lia). reflexivity.
    + replace (0 <=? GoString.Index gvUrl "&sq=") with true
        by (symmetry; apply Z.leb_le; lia). reflexivity.
  - rewrite bool_decide_eq_true_2 by reflexivity.
    rewrite bool_decide_eq_false_2 by (intros [v Hv]; discriminate).
    reflexivity.
Qed.

End GvideoUrlProperties.

(** C9. [ParseGvideoUrl] either succeeds, and then the URL parses, the
    lower-cased host ends in [.googlevideo.com], the query has [noclen],
    the itag is an integer that is the audio itag for an audio request and
    is not the audio itag for a video request, the URL holds [&sq=], and
    the result is the itag with the URL cut at its first [&sq=] and
    continued by the placeholder [&sq=%s]; or it returns the empty
    template with itag 0, and then one of the checks fails. A URL without
    [noclen], and a video request for a URL with the audio itag, give the
    empty template and itag 0. *)
Theorem ParseGvideoUrl_cases (DtypeAudio DtypeVideo : string) (AudioItag : Z)
    (url_Parse : string -> option URL) (ToLower : string -> string)
    (gvUrl dataType : string) :
  let r := ParseGvideoUrl DtypeAudio DtypeVideo AudioItag url_Parse ToLower
             gvUrl dataType in
  ((exists u itag pre post,
       url_Parse gvUrl = Some u
       /\ GoString.HasSuffix (ToLower (Hostname u)) ".googlevideo.com" = true
       /\ is_Some (Query u !! "noclen"%string)
       /\ Strconv.Atoi (Values_Get (Query u) "itag") = (itag, None)
       /\ (dataType = DtypeAudio -> itag = AudioItag)
       /\ (dataType = DtypeVideo -> itag <> AudioItag)
       /\ gvUrl = pre +:+ "&sq=" +:+ post
       /\ (forall pre' post', gvUrl = pre' +:+ "&sq=" +:+ post' ->
           (String.length pre <= String.length pre')%nat)
       /\ r = (pre +:+ "&sq=%s", itag))
   \/ (r = (EmptyString, 0)
       /\ (url_Parse gvUrl = None
           \/ exists u itag err,
                url_Parse gvUrl = Some u
                /\ Strconv.Atoi (Values_Get (Query u) "itag") = (itag, err)
                /\ (err <> None
                    \/ GoString.HasSuffix (ToLower (Hostname u)) ".googlevideo.com"
                       = false
                    \/ Query u !! "noclen"%string = None
                    \/ (dataType = DtypeAudio /\ itag <> AudioItag)
                    \/ (dataType = DtypeVideo /\ itag = AudioItag)
                    \/ (forall pre post, gvUrl <> pre +:+ "&sq=" +:+ post)))))
  /\ (forall u, url_Parse gvUrl = Some u -> Query u !! "noclen"%string = None ->
      r = (EmptyString, 0))
  /\ (forall u err, url_Parse gvUrl = Some u ->
      Strconv.Atoi (Values_Get (Query u) "itag") = (AudioItag, err) ->
      dataType = DtypeVideo -> r = (EmptyString, 0)).
Proof.
  cbv zeta. split; [|split].
  - destruct (url_Parse gvUrl) as [u|] eqn:Hparse.
    2:{ right. unfold ParseGvideoUrl. rewrite Hparse. auto. }
    rewrite (ParseGvideoUrl_parsed _ _ _ _ _ _ _ u Hparse).
    destruct (Strconv.Atoi (Values_Get (Query u) "itag")) as [itag err] eqn:Hitag.
    assert (Hfail :
               err <> None
               \/ GoString.HasSuffix (ToLower (Hostname u)) ".googlevideo.com" = false
               \/ Query u !! "noclen"%string = None
               \/ (dataType = DtypeAudio /\ itag <> AudioItag)
               \/ (dataType = DtypeVideo /\ itag = AudioItag)
               \/ (forall pre post, gvUrl <> pre +:+ "&sq=" +:+ post) ->
               (EmptyString, 0) = (EmptyString, 0)
               /\ (Some u = None
                   \/ exists u0 itag0 err0,
                        Some u = Some u0
                        /\ Strconv.Atoi (Values_Get (Query u0) "itag") = (itag0, err0)
                        /\ (err0 <> None
                            \/ GoString.HasSuffix (ToLower (Hostname u0))
                                 ".googlevideo.com" = false
                            \/ Query u0 !! "noclen"%string = None
                            \/ (dataType = DtypeAudio /\ itag0 <> AudioItag)
                            \/ (dataType = DtypeVideo /\ itag0 = AudioItag)
                            \/ (forall pre post, gvUrl <> pre +:+ "&sq=" +:+ post)))).
    { intros H. split; [reflexivity|]. right. exists u, itag, err. auto. }
    destruct (bool_decide (err = None)) eqn:Herr; cbn [andb].
    2:{ right. apply Hfail. left. now apply bool_decide_eq_false in Herr. }
    apply bool_decide_eq_true in Herr. subst err.
    destruct (GoString.HasSuffix _ _) eqn:Hhost; cbn [andb].
    2:{ right. apply Hfail. auto. }
    destruct (bool_decide (is_Some (Query u !! "noclen"%string))) eqn:Hnoclen;
      cbn [andb].
    2:{ right. apply Hfail. right. right. left.
        apply bool_decide_eq_false in Hnoclen.
        destruct (Query u !! "noclen"%string); [exfalso; eauto | reflexivity]. }
    apply bool_decide_eq_true in Hnoclen.
    destruct (String.eqb dataType DtypeAudio && negb (itag =? AudioItag)) eqn:Haudio;
      cbn [negb andb].
    { right. apply Hfail. do 3 right. left.
      apply andb_true_iff in Haudio. destruct Haudio as [Hd Hi].
      apply String.eqb_eq in Hd. apply negb_true_iff, Z.eqb_neq in Hi. auto. }
    destruct (String.eqb dataType DtypeVideo && (itag =? AudioItag)) eqn:Hvideo;
      cbn [negb andb].
    { right. apply Hfail. do 4 right. left.
      apply andb_true_iff in Hvideo. destruct Hvideo as [Hd Hi].
      apply String.eqb_eq in Hd. apply Z.eqb_eq in Hi. auto. }
    destruct (0 <=? GoString.Index gvUrl "&sq=") eqn:Hsq.
    2:{ right. apply Hfail. do 5 right.
        apply Index_missing. apply Z.leb_gt in Hsq. exact Hsq. }
    left. apply Z.leb_le in Hsq.
    destruct (Index_found gvUrl "&sq=" Hsq) as (pre & post & Hs & Htake & Hmin).
    exists u, itag, pre, post. rewrite Htake.
    split; [reflexivity|]. split; [exact Hhost|]. split; [assumption|].
    split; [exact Hitag|]. split.
    { intros Hd. apply andb_false_iff in Haudio. destruct Haudio as [Hn|Hn].
      - apply String.eqb_neq in Hn. contradiction.
      - apply negb_false_iff, Z.eqb_eq in Hn. exact Hn. }
    split.
    { intros Hd. apply andb_false_iff in Hvideo. destruct Hvideo as [Hn|Hn].
      - apply String.eqb_neq in Hn. contradiction.
      - now apply Z.eqb_neq in Hn. }
    split; [exact Hs|]. split; [exact Hmin | reflexivity].
  - intros u Hparse Hnoclen.
    rewrite (ParseGvideoUrl_parsed _ _ _ _ _ _ _ u Hparse).
    destruct (Strconv.Atoi _) as [itag err]. rewrite Hnoclen.
    rewrite (bool_decide_eq_false_2 (is_Some None)) by (intros [v Hv]; discriminate).
    rewrite !andb_false_r. reflexivity.
  - intros u err Hparse Hitag ->.
    rewrite (ParseGvideoUrl_parsed _ _ _ _ _ _ _ u Hparse). rewrite Hitag.
    rewrite String.eqb_refl, Z.eqb_refl. cbn [andb negb].
    rewrite !andb_false_r. reflexivity.
Qed.

Lemma ParseGvideoUrl_cases_witness :
  ParseGvideoUrl "audio" "video" 140 PlainUrl.Parse PlainUrl.ToLower
    whole_file_url "audio" = (EmptyString, 0)
  /\ ParseGvideoUrl "audio" "video" 140 PlainUrl.Parse PlainUrl.ToLower
       audio_url "video" = (EmptyString, 0).
Proof.
  split.
  - eapply (proj1 (proj2 (ParseGvideoUrl_cases "audio" "video" 140 PlainUrl.Parse
                            PlainUrl.ToLower whole_file_url "audio"))).
    + vm_compute. reflexivity.
    + vm_compute. reflexivity.
  - eapply (proj2 (proj2 (ParseGvideoUrl_cases "audio" "video" 140 PlainUrl.Parse
                            PlainUrl.ToLower audio_url "video"))).
    + vm_compute. reflexivity.
    + vm_compute. reflexivity.
    + reflexivity.
Defined.

(** The example of the specification: the audio URL with [&sq=42], asked
    for as audio, gives the template up to the marker and the audio
    itag. *)
Example ParseGvideoUrl_audio_url :
  ParseGvideoUrl "audio" "video" 140 PlainUrl.Parse PlainUrl.ToLower audio_url "audio"
  = ("https://R1---sn-a.GoogleVideo.com/videoplayback?noclen=1&itag=140&sq=%s"%string,
     140).
Proof. vm_compute. reflexivity. Qed.

(** The dump that [GetAtoms] hands to [ParseInt] for the length bytes
    [00 00 00 0c]. *)
Example Dump_length_bytes :
  Hex.Dump [x00; x00; x00; x0c]%byte
  = ("00000000  00 00 00 0c                                       |....|"
     +:+ String "010" EmptyString)%string
  /\ Strconv.ParseInt (Hex.Dump [x00; x00; x00; x0c]%byte) 16 0
     = (0, Some Strconv.ErrSyntax)
  /\ Strconv.ParseInt "0000000c" 16 0 = (12, None).
Proof. vm_compute. repeat split; reflexivity. Qed.

(** * Further properties of util.go *)

(** ** File names *)

Lemma replace_byte_fname (c : ascii) :
  replace_byte fnameReplacer c = if illegal c then "_"%char else c.
Proof.
  unfold illegal, fnameReplacer. cbn [replace_byte existsb fst].
  repeat (destruct (Ascii.eqb c _); cbn [orb]; [reflexivity|]).
  reflexivity.
Qed.

Lemma replace_byte_legal (c : ascii) : illegal (replace_byte fnameReplacer c) = false.
Proof.
  rewrite replace_byte_fname. destruct (illegal c) eqn:Hc; [reflexivity | exact Hc].
Qed.

Lemma SterilizeFilename_bytes (s : string) :
  forall c, In c (list_ascii_of_string (SterilizeFilename s)) -> illegal c = false.
Proof.
  unfold SterilizeFilename. induction s as [|c s IH]; intros d Hd; [destruct Hd|].
  cbn [Replacer_Replace list_ascii_of_string] in Hd.
  destruct Hd as [<-|Hd]; [apply replace_byte_legal | now apply IH].
Qed.

(** X1. [SterilizeFilename] keeps the length of the name, and no byte of
    its result is one of the nine bytes it replaces. *)
Theorem SterilizeFilename_legal (s : string) :
  String.length (SterilizeFilename s) = String.length s
  /\ (forall c, In c (list_ascii_of_string (SterilizeFilename s)) -> illegal c = false).
Proof.
  split; [|apply SterilizeFilename_bytes].
  unfold SterilizeFilename. induction s as [|c s IH]; [reflexivity|].
  cbn [Replacer_Replace String.length]. now rewrite IH.
Qed.

(** X2. [SterilizeFilename] leaves a name as it is exactly when the name
    holds none of the replaced bytes; applying it twice is the same as
    applying it once. *)
Theorem SterilizeFilename_fixed (s : string) :
  (SterilizeFilename s = s
   <-> forall c, In c (list_ascii_of_string s) -> illegal c = false)
  /\ SterilizeFilename (SterilizeFilename s) = SterilizeFilename s.
Proof.
  assert (Hfix : forall t : string,
             SterilizeFilename t = t
             <-> forall c, In c (list_ascii_of_string t) -> illegal c = false).
  { unfold SterilizeFilename. induction t as [|c t IH].
    - split; [intros _ c [] | reflexivity].
    - cbn [Replacer_Replace list_ascii_of_string]. rewrite replace_byte_fname. split.
      + intros Heq. injection Heq as Hc Ht. intros d [<-|Hd].
        * destruct (illegal c) eqn:Hill; [|reflexivity].
          subst c. vm_compute in Hill. discriminate.
        * now apply IH.
      + intros Hall. rewrite (Hall c (or_introl eq_refl)). f_equal.
        apply IH. intros d Hd. apply Hall. now right. }
  split; [apply Hfix|]. apply Hfix. apply SterilizeFilename_bytes.
Qed.

(** ** Fragmentation heuristic *)

(** X3. [IsFragmented] answers true exactly when the lower-cased URL
    holds [noclen] and does not start with it: a marker at index 0 is
    reported as no marker. *)
Theorem IsFragmented_not_at_start (ToLower : string -> string) (url : string) :
  IsFragmented ToLower url = true
  <-> (exists pre post, ToLower url = pre +:+ "noclen" +:+ post)
      /\ GoString.HasPrefix (ToLower url) "noclen" = false.
Proof.
  unfold IsFragmented, GoString.Index. rewrite Z.ltb_lt.
  destruct (Index_from_spec (ToLower url) "noclen" 0) as [Hnone Hsome].
  split.
  - intros Hpos.
    assert (Hex : exists pre post, ToLower url = pre +:+ "noclen" +:+ post).
    { destruct (Index_found (ToLower url) "noclen") as (p & q & Hs & _).
      - unfold GoString.Index. lia.
      - eauto. }
    split; [exact Hex|].
    destruct (Hsome Hex) as (p & q & Hs & Hidx & Hmin).
    destruct (GoString.HasPrefix (ToLower url) "noclen") eqn:Hp; [|reflexivity].
    apply HasPrefix_true in Hp. destruct Hp as [t Ht].
    specialize (Hmin EmptyString t Ht). cbn [String.length] in Hmin.
    unfold GoString.len in Hidx. lia.
  - intros [Hex Hp]. destruct (Hsome Hex) as (p & q & Hs & Hidx & _).
    rewrite Hidx. unfold GoString.len. destruct p as [|c p].
    + assert (GoString.HasPrefix (ToLower url) "noclen" = true)
        by (apply HasPrefix_true; exists q; exact Hs).
      congruence.
    + cbn [String.length]. lia.
Qed.

(** ** String slices *)

Lemma StringsIndex_from_absent (arr : list string) (s : string) (i : Z) :
  s ∉ arr -> StringsIndex_from i arr s = -1.
Proof.
  revert i. induction arr as [|x arr IH]; intros i Hnot; [reflexivity|].
  cbn [StringsIndex_from]. apply not_elem_of_cons in Hnot. destruct Hnot as [Hne Hnot].
  destruct (String.eqb_spec x s) as [->|_]; [contradiction|]. now apply IH.
Qed.

Lemma StringsIndex_from_first (pre post : list string) (s : string) (i : Z) :
  s ∉ pre ->
  StringsIndex_from i (pre ++ s :: post) s = i + Z.of_nat (length pre).
Proof.
  revert i. induction pre as [|x pre IH]; intros i Hnot.
  - cbn [app StringsIndex_from length]. rewrite String.eqb_refl. lia.
  - apply not_elem_of_cons in Hnot. destruct Hnot as [Hne Hnot].
    cbn [app StringsIndex_from length].
    destruct (String.eqb_spec x s) as [->|_]; [contradiction|].
    rewrite IH by assumption. lia.
Qed.

(** X4. [StringsIndex] answers [-1] exactly when the string is not in the
    slice; otherwise it answers the index of its first occurrence. *)
Theorem StringsIndex_first_occurrence (arr : list string) (s : string) :
  (StringsIndex arr s = -1 <-> s ∉ arr)
  /\ (forall pre post, arr = pre ++ s :: post -> s ∉ pre ->
      StringsIndex arr s = Z.of_nat (length pre))
  /\ (s ∈ arr ->
      exists k : nat, StringsIndex arr s = Z.of_nat k /\ arr !! k = Some s
                      /\ forall j : nat, (j < k)%nat -> arr !! j <> Some s).
Proof.
  assert (Hfirst : forall pre post, arr = pre ++ s :: post -> s ∉ pre ->
                     StringsIndex arr s = Z.of_nat (length pre)).
  { intros pre post -> Hnot. unfold StringsIndex.
    rewrite StringsIndex_from_first by assumption. lia. }
  assert (Hin : s ∈ arr ->
                exists k : nat, StringsIndex arr s = Z.of_nat k /\ arr !! k = Some s
                                /\ forall j : nat, (j < k)%nat -> arr !! j <> Some s).
  { intros Hs. apply list_elem_of_split_l in Hs. destruct Hs as (pre & post & -> & Hnot).
    exists (length pre). split; [now apply (Hfirst pre post)|]. split.
    - rewrite lookup_app_r by lia. now rewrite Nat.sub_diag.
    - intros j Hj Hlook. rewrite lookup_app_l in Hlook by assumption.
      apply Hnot. eapply list_elem_of_lookup_2. exact Hlook. }
  split; [|split; assumption].
  split.
  - intros Hminus Hs. destruct (Hin Hs) as (k & Hk & _). lia.
  - intros Hnot. now apply StringsIndex_from_absent.
Qed.

Lemma slice_suffix {A} (arr : list A) (idx : Z) :
  0 <= idx <= GoSlice.len arr ->
  GoSlice.slice arr idx (GoSlice.len arr) = Some (drop (Z.to_nat idx) arr).
Proof.
  intros Hidx. unfold GoSlice.slice, GoSlice.len in *.
  replace ((0 <=? idx) && (idx <=? Z.of_nat (length arr))
           && (Z.of_nat (length arr) <=? Z.of_nat (length arr))) with true
    by (symmetry; rewrite !andb_true_iff, !Z.leb_le; lia).
  f_equal. apply take_ge. rewrite length_drop. lia.
Qed.

Lemma add_small (a b : Z) :
  0 <= a -> 0 <= b -> a + b <= GoInt.MaxInt -> GoInt.add a b = a + b.
Proof.
  intros Ha Hb Hsum. unfold GoInt.add. apply wrap_id.
  unfold GoInt.in_range, GoInt.MinInt, GoInt.MaxInt in *.
  rewrite pow_IntSize_pred in *. lia.
Qed.

Lemma InsertStringAt_in_range (cap : Z) (arr : list string) (idx : Z) (s : string) :
  GoSlice.len arr <= GoInt.MaxInt ->
  GoSlice.len arr <= cap ->
  0 <= idx <= GoSlice.len arr ->
  InsertStringAt cap arr idx s
  = Returns (take (Z.to_nat idx) arr ++ s :: drop (Z.to_nat idx) arr).
Proof.
  intros Hmax Hcap Hidx. unfold InsertStringAt.
  destruct (Z.eqb_spec (GoSlice.len arr) idx) as [<-|Hne].
  - unfold GoSlice.len. rewrite Nat2Z.id, take_ge, drop_ge by lia. reflexivity.
  - assert (Hlt : idx < GoSlice.len arr) by lia.
    rewrite add_small by lia.
    replace ((0 <=? idx + 1) && (idx + 1 <=? cap)) with true
      by (symmetry; rewrite andb_true_iff, !Z.leb_le; lia).
    rewrite slice_suffix by lia. f_equal.
    unfold GoSlice.len in *.
    destruct (lookup_lt_is_Some_2 arr (Z.to_nat idx)) as [x Hx]; [lia|].
    replace (Z.to_nat (idx + 1)) with (S (Z.to_nat idx)) by lia.
    rewrite (take_S_r _ _ _ Hx), <- app_assoc.
    rewrite insert_app_r_alt by (rewrite length_take; lia).
    rewrite length_take.
    replace (Z.to_nat idx - Z.to_nat idx `min` length arr)%nat with 0%nat by lia.
    reflexivity.
Qed.

(** X5. On a slice of [n] strings [InsertStringAt] returns, for an index
    from [0] to [n], the slice with [s] put at that index and the strings
    from there on moved up by one; for any other index it panics. *)
Theorem InsertStringAt_inserts (cap : Z) (arr : list string) (idx : Z) (s : string) :
  GoSlice.len arr <= GoInt.MaxInt ->
  GoSlice.len arr <= cap ->
  (0 <= idx <= GoSlice.len arr ->
   InsertStringAt cap arr idx s
   = Returns (take (Z.to_nat idx) arr ++ s :: drop (Z.to_nat idx) arr))
  /\ (idx < 0 \/ GoSlice.len arr < idx -> InsertStringAt cap arr idx s = Panics).
Proof.
  intros Hmax Hcap. split; [now apply InsertStringAt_in_range|].
  unfold InsertStringAt.
  intros Hout. destruct (Z.eqb_spec (GoSlice.len arr) idx) as [<-|Hne].
  { unfold GoSlice.len in *. lia. }
  destruct (_ && _); [|reflexivity].
  unfold GoSlice.slice.
  replace ((0 <=? idx) && (idx <=? GoSlice.len arr)
           && (GoSlice.len arr <=? Z.of_nat (length arr))) with false;
    [reflexivity|].
  symmetry. rewrite !andb_false_iff, !Z.leb_gt. lia.
Qed.

Lemma InsertStringAt_inserts_witness :
  InsertStringAt 4 ["144p"; "360p"; "720p"]%string 1 "240p"
  = Returns ["144p"; "240p"; "360p"; "720p"]%string
  /\ InsertStringAt 4 ["144p"; "360p"; "720p"]%string 4 "240p" = Panics.
Proof.
  destruct (InsertStringAt_inserts 4 ["144p"; "360p"; "720p"]%string 1 "240p")
    as [Hin _]; [vm_compute; discriminate | vm_compute; discriminate |].
  destruct (InsertStringAt_inserts 4 ["144p"; "360p"; "720p"]%string 4 "240p")
    as [_ Hout]; [vm_compute; discriminate | vm_compute; discriminate |].
  split.
  - apply Hin. vm_compute. split; discriminate.
  - apply Hout. right. vm_compute. reflexivity.
Defined.

(** X6. After [InsertStringAt] has put [s] at an index of the slice,
    [StringsIndex] finds [s] at that index, provided [s] does not occur
    before it. *)
Theorem StringsIndex_after_insert (cap : Z) (arr : list string) (idx : Z) (s : string) :
  GoSlice.len arr <= GoInt.MaxInt ->
  GoSlice.len arr <= cap ->
  0 <= idx <= GoSlice.len arr ->
  s ∉ take (Z.to_nat idx) arr ->
  exists arr', InsertStringAt cap arr idx s = Returns arr'
               /\ StringsIndex arr' s = idx
               /\ GoSlice.len arr' = GoSlice.len arr + 1.
Proof.
  intros Hmax Hcap Hidx Hnot.
  eexists. split; [now apply InsertStringAt_in_range|]. unfold GoSlice.len in *. split.
  - unfold StringsIndex. rewrite StringsIndex_from_first by assumption.
    rewrite length_take. lia.
  - rewrite length_app. cbn [length]. rewrite length_take, length_drop. lia.
Qed.

Lemma StringsIndex_after_insert_witness :
  exists arr', InsertStringAt 4 ["144p"; "360p"; "720p"]%string 1 "240p" = Returns arr'
               /\ StringsIndex arr' "240p" = 1
               /\ GoSlice.len arr' = GoSlice.len ["144p"; "360p"; "720p"]%string + 1.
Proof.
  apply (StringsIndex_after_insert 4 ["144p"; "360p"; "720p"]%string 1 "240p").
  - vm_compute. discriminate.
  - vm_compute. discriminate.
  - vm_compute. split; discriminate.
  - cbn. intros Hin. apply list_elem_of_singleton in Hin. discriminate.
Defined.

(** ** The watch page *)

Lemma of_bytes_cons (b : byte) (l : list byte) :
  GoString.of_bytes (b :: l) = String (ascii_of_byte b) (GoString.of_bytes l).
Proof. reflexivity. Qed.

Lemma of_bytes_app (a b : list byte) :
  GoString.of_bytes (a ++ b) = GoString.of_bytes a +:+ GoString.of_bytes b.
Proof.
  induction a as [|x a IH]; [reflexivity|].
  cbn [app]. rewrite !of_bytes_cons, IH. reflexivity.
Qed.

Lemma of_bytes_length (a : list byte) :
  String.length (GoString.of_bytes a) = length a.
Proof.
  induction a as [|x a IH]; [reflexivity|].
  rewrite of_bytes_cons. cbn [String.length length]. now rewrite IH.
Qed.

Lemma of_bytes_inj (a b : list byte) :
  GoString.of_bytes a = GoString.of_bytes b -> a = b.
Proof.
  intros H. rewrite <- (list_byte_of_string_of_list_byte a),
    <- (list_byte_of_string_of_list_byte b).
  unfold GoString.of_bytes in H. now rewrite H.
Qed.

Lemma to_bytes_length (s : string) :
  length (list_byte_of_string s) = String.length s.
Proof.
  rewrite <- (string_of_list_byte_of_string s) at 2.
  symmetry. apply of_bytes_length.
Qed.

(** A decomposition of the string of a byte slice is one of the slice. *)
Lemma of_bytes_split (data sep : list byte) (p q : string) :
  GoString.of_bytes data = p +:+ GoString.of_bytes sep +:+ q ->
  data = list_byte_of_string p ++ sep ++ list_byte_of_string q.
Proof.
  intros H. apply of_bytes_inj. rewrite !of_bytes_app.
  unfold GoString.of_bytes at 2 4. now rewrite !string_of_list_byte_of_string.
Qed.

Lemma Index_from_absent (s sub : string) (i : Z) :
  (forall pre post, s <> pre +:+ sub +:+ post) ->
  GoString.Index_from i s sub = -1.
Proof.
  revert i. induction s as [|c s IH]; intros i Hnone; cbn [GoString.Index_from].
  - destruct (GoString.HasPrefix EmptyString sub) eqn:Hp; [|reflexivity].
    apply HasPrefix_true in Hp. destruct Hp as [t Ht].
    exfalso. apply (Hnone EmptyString t). exact Ht.
  - destruct (GoString.HasPrefix (String c s) sub) eqn:Hp.
    + apply HasPrefix_true in Hp. destruct Hp as [t Ht].
      exfalso. apply (Hnone EmptyString t). exact Ht.
    + apply IH. intros pre post Hs. apply (Hnone (String c pre) post).
      rewrite append_cons. now f_equal.
Qed.

Lemma bytes_Index_absent (data sep : list byte) :
  (forall pre post, data <> pre ++ sep ++ post) ->
  bytes_Index data sep = -1.
Proof.
  intros Hnone. unfold bytes_Index, GoString.Index. apply Index_from_absent.
  intros p q H. apply of_bytes_split in H. now apply (Hnone _ _ H).
Qed.

Lemma bytes_Index_first (data sep pre post : list byte) :
  data = pre ++ sep ++ post ->
  (forall p q, data = p ++ sep ++ q -> (length pre <= length p)%nat) ->
  bytes_Index data sep = Z.of_nat (length pre).
Proof.
  intros Hdata Hmin. unfold bytes_Index, GoString.Index.
  destruct (Index_from_spec (GoString.of_bytes data) (GoString.of_bytes sep) 0)
    as [_ Hsome].
  destruct Hsome as (p & q & Hs & Hidx & Hmin').
  { exists (GoString.of_bytes pre), (GoString.of_bytes post).
    rewrite Hdata, !of_bytes_app. reflexivity. }
  rewrite Hidx. unfold GoString.len.
  specialize (Hmin' (GoString.of_bytes pre) (GoString.of_bytes post)).
  rewrite of_bytes_length in Hmin'.
  assert (String.length p <= length pre)%nat.
  { apply Hmin'. rewrite Hdata, !of_bytes_app. reflexivity. }
  apply of_bytes_split in Hs. apply Hmin in Hs. rewrite to_bytes_length in Hs. lia.
Qed.

Lemma quote_first (id rest : list byte) :
  quote_byte ∉ id ->
  bytes_Index (id ++ quote_byte :: rest) [quote_byte] = Z.of_nat (length id).
Proof.
  intros Hnot. apply (bytes_Index_first _ _ id rest); [reflexivity|].
  intros p q Hpq.
  destruct (Nat.le_gt_cases (length id) (length p)) as [Hle|Hgt]; [exact Hle|].
  exfalso. apply Hnot.
  assert (Hlook : (id ++ quote_byte :: rest) !! length p = Some quote_byte).
  { rewrite Hpq. rewrite lookup_app_r by lia. now rewrite Nat.sub_diag. }
  rewrite lookup_app_l in Hlook by assumption.
  eapply list_elem_of_lookup_2. exact Hlook.
Qed.

Lemma slice_middle {A} (pre mid post : list A) :
  GoSlice.slice (pre ++ mid ++ post) (Z.of_nat (length pre))
    (Z.of_nat (length mid) + Z.of_nat (length pre)) = Some mid.
Proof.
  unfold GoSlice.slice.
  replace ((0 <=? Z.of_nat (length pre))
           && (Z.of_nat (length pre) <=? Z.of_nat (length mid) + Z.of_nat (length pre))
           && (Z.of_nat (length mid) + Z.of_nat (length pre)
               <=? Z.of_nat (length (pre ++ mid ++ post)))) with true
    by (symmetry; rewrite !andb_true_iff, !Z.leb_le, !length_app; lia).
  f_equal. rewrite Nat2Z.id, drop_app_length.
  replace (Z.to_nat (Z.of_nat (length mid) + Z.of_nat (length pre) - Z.of_nat (length pre)))
    with (length mid) by lia.
  apply take_app_length.
Qed.

(** X7. On a page without the canonical-link tag
    [GetVideoIdFromWatchPage] returns the empty string. On a page where
    the first tag is followed by an id and a closing quote it returns the
    bytes between the tag and that quote. *)
Theorem GetVideoIdFromWatchPage_id (data : list byte) :
  GoSlice.len data <= GoInt.MaxInt ->
  ((forall pre post, data <> pre ++ HtmlVideoLinkTag ++ post) ->
   GetVideoIdFromWatchPage data = Returns EmptyString)
  /\ (forall pre id rest,
        data = pre ++ HtmlVideoLinkTag ++ id ++ quote_byte :: rest ->
        (forall p q, data = p ++ HtmlVideoLinkTag ++ q -> (length pre <= length p)%nat) ->
        quote_byte ∉ id ->
        GetVideoIdFromWatchPage data = Returns (GoString.of_bytes id)).
Proof.
  intros Hmax. unfold GetVideoIdFromWatchPage. split.
  - intros Hnone. rewrite bytes_Index_absent by assumption. reflexivity.
  - intros pre id rest Hdata Hmin Hquote.
    rewrite (bytes_Index_first data HtmlVideoLinkTag pre (id ++ quote_byte :: rest))
      by assumption.
    replace (Z.of_nat (length pre) <? 0) with false by (symmetry; apply Z.ltb_ge; lia).
    assert (Hlen : GoSlice.len data
                   = Z.of_nat (length pre) + GoSlice.len HtmlVideoLinkTag
                     + Z.of_nat (length id) + 1 + Z.of_nat (length rest)).
    { unfold GoSlice.len. rewrite Hdata, !length_app. cbn [length]. lia. }
    assert (Htag : 0 <= GoSlice.len HtmlVideoLinkTag) by (unfold GoSlice.len; lia).
    rewrite add_small by lia.
    rewrite slice_suffix by lia.
    assert (Hdrop : drop (Z.to_nat (Z.of_nat (length pre) + GoSlice.len HtmlVideoLinkTag)) data
                    = id ++ quote_byte :: rest).
    { rewrite Hdata, app_assoc. unfold GoSlice.len.
      replace (Z.to_nat (Z.of_nat (length pre) + Z.of_nat (length HtmlVideoLinkTag)))
        with (length (pre ++ HtmlVideoLinkTag)) by (rewrite length_app; lia).
      apply drop_app_length. }
    rewrite Hdrop, quote_first by assumption.
    rewrite add_small by lia.
    rewrite Hdata at 1. rewrite app_assoc.
    replace (Z.of_nat (length pre) + GoSlice.len HtmlVideoLinkTag)
      with (Z.of_nat (length (pre ++ HtmlVideoLinkTag)))
      by (unfold GoSlice.len; rewrite length_app; lia).
    rewrite (slice_middle (pre ++ HtmlVideoLinkTag) id (quote_byte :: rest)).
    reflexivity.
Qed.

(** X8. On a page where no quote follows the first canonical-link tag,
    [GetVideoIdFromWatchPage] panics: the end index falls one before the
    start index. *)
Theorem GetVideoIdFromWatchPage_unterminated (data pre tail : list byte) :
  GoSlice.len data <= GoInt.MaxInt ->
  data = pre ++ HtmlVideoLinkTag ++ tail ->
  (forall p q, data = p ++ HtmlVideoLinkTag ++ q -> (length pre <= length p)%nat) ->
  quote_byte ∉ tail ->
  GetVideoIdFromWatchPage data = Panics.
Proof.
  intros Hmax Hdata Hmin Hquote. unfold GetVideoIdFromWatchPage.
  rewrite (bytes_Index_first data HtmlVideoLinkTag pre tail) by assumption.
  replace (Z.of_nat (length pre) <? 0) with false by (symmetry; apply Z.ltb_ge; lia).
  assert (Hlen : GoSlice.len data
                 = Z.of_nat (length pre) + GoSlice.len HtmlVideoLinkTag
                   + Z.of_nat (length tail)).
  { unfold GoSlice.len. rewrite Hdata, !length_app. lia. }
  assert (Htag : GoSlice.len HtmlVideoLinkTag = 60) by reflexivity.
  rewrite add_small by lia.
  rewrite slice_suffix by lia.
  assert (Hdrop : drop (Z.to_nat (Z.of_nat (length pre) + GoSlice.len HtmlVideoLinkTag)) data
                  = tail).
  { rewrite Hdata, app_assoc. unfold GoSlice.len.
    replace (Z.to_nat (Z.of_nat (length pre) + Z.of_nat (length HtmlVideoLinkTag)))
      with (length (pre ++ HtmlVideoLinkTag)) by (rewrite length_app; lia).
    apply drop_app_length. }
  rewrite Hdrop.
  rewrite (bytes_Index_absent tail [quote_byte]).
  - unfold GoInt.add. rewrite wrap_id.
    + unfold GoSlice.slice.
      replace (Z.of_nat (length pre) + GoSlice.len HtmlVideoLinkTag
               <=? -1 + (Z.of_nat (length pre) + GoSlice.len HtmlVideoLinkTag))
        with false by (symmetry; apply Z.leb_gt; lia).
      rewrite andb_false_r. reflexivity.
    + unfold GoInt.in_range, GoInt.MinInt, GoInt.MaxInt in *.
      rewrite pow_IntSize_pred in *. lia.
  - intros p q Hpq. apply Hquote. rewrite Hpq.
    apply elem_of_app. right. apply elem_of_app. left. now apply list_elem_of_singleton.
Qed.

Lemma bytes_Index_least (data sep : list byte) (n : nat) :
  bytes_Index data sep = Z.of_nat n ->
  forall p q, data = p ++ sep ++ q -> (n <= length p)%nat.
Proof.
  intros Hidx p q Hdata. unfold bytes_Index, GoString.Index in Hidx.
  destruct (Index_from_spec (GoString.of_bytes data) (GoString.of_bytes sep) 0)
    as [_ Hsome].
  destruct Hsome as (p0 & q0 & _ & Hidx0 & Hmin).
  { exists (GoString.of_bytes p), (GoString.of_bytes q).
    rewrite Hdata, !of_bytes_app. reflexivity. }
  specialize (Hmin (GoString.of_bytes p) (GoString.of_bytes q)).
  rewrite of_bytes_length in Hmin. unfold GoString.len in Hidx0.
  assert (String.length p0 <= length p)%nat.
  { apply Hmin. rewrite Hdata, !of_bytes_app. reflexivity. }
  lia.
Qed.

Lemma GetVideoIdFromWatchPage_id_witness :
  GetVideoIdFromWatchPage watch_page = Returns "dQw4w9WgXcQ"%string.
Proof.
  destruct (GetVideoIdFromWatchPage_id watch_page) as [_ Hid];
    [vm_compute; discriminate|].
  apply (Hid (list_byte_of_string "<html><head>") (list_byte_of_string "dQw4w9WgXcQ")
           (list_byte_of_string "></head>")).
  - reflexivity.
  - apply (bytes_Index_least watch_page HtmlVideoLinkTag 12). vm_compute. reflexivity.
  - rewrite list_elem_of_In. cbn. intuition discriminate.
Defined.

Lemma GetVideoIdFromWatchPage_unterminated_witness :
  GetVideoIdFromWatchPage cut_page = Panics.
Proof.
  apply (GetVideoIdFromWatchPage_unterminated cut_page
           (list_byte_of_string "<html><head>") (list_byte_of_string "dQw4w9")).
  - vm_compute. discriminate.
  - reflexivity.
  - apply (bytes_Index_least cut_page HtmlVideoLinkTag 12). vm_compute. reflexivity.
  - rewrite list_elem_of_In. cbn. intuition discriminate.
Defined.

(** ** Quality selection *)

Section TextProperties.

Variables TrimSpace ToLower : string -> string.

Lemma select_format_member (formats : list string) (stripped : string)
    (sel : list string) :
  select_format formats stripped sel
  = if decide (stripped ∈ formats) then sel ++ [stripped] else sel.
Proof.
  induction formats as [|v formats IH]; cbn [select_format].
  - rewrite decide_False by apply not_elem_of_nil. reflexivity.
  - destruct (String.eqb_spec stripped v) as [->|Hne].
    + rewrite decide_True by apply list_elem_of_here. reflexivity.
    + rewrite IH. destruct (decide (stripped ∈ formats)) as [Hin|Hnot].
      * rewrite decide_True by now apply list_elem_of_further. reflexivity.
      * rewrite decide_False; [reflexivity|].
        intros Hin. apply elem_of_cons in Hin. destruct Hin; contradiction.
Qed.

Lemma select_quality_filter (formats qualities sel : list string) :
  fold_left (select_quality TrimSpace formats) qualities sel
  = sel ++ filter (fun q => q = "best"%string \/ q ∈ formats) (TrimSpace <$> qualities).
Proof.
  revert sel. induction qualities as [|q qualities IH]; intros sel.
  - cbn. now rewrite app_nil_r.
  - cbn [fold_left fmap list_fmap]. rewrite IH. unfold select_quality.
    rewrite filter_cons.
    destruct (String.eqb_spec (TrimSpace q) "best") as [Hbest|Hne].
    + rewrite decide_True by now left. now rewrite <- app_assoc.
    + rewrite select_format_member.
      destruct (decide (TrimSpace q ∈ formats)) as [Hin|Hnot].
      * rewrite decide_True by now right. now rewrite <- app_assoc.
      * rewrite decide_False; [reflexivity|]. intros [?|?]; contradiction.
Qed.

End TextProperties.

(** X9. [ParseQualitySelection] returns, in the order the user gave them,
    the trimmed pieces of the lower-cased selection between slashes that
    are [best] or one of the formats; a piece is taken once even when the
    formats list it twice, and nothing else is ever returned. *)
Theorem ParseQualitySelection_filter (TrimSpace ToLower : string -> string)
    (formats : list string) (quality : string) :
  ParseQualitySelection TrimSpace ToLower formats quality
  = filter (fun q => q = "best"%string \/ q ∈ formats)
      (TrimSpace <$> Split (ToLower (TrimSpace quality)) "/")
  /\ (forall q, q ∈ ParseQualitySelection TrimSpace ToLower formats quality ->
      q = "best"%string \/ q ∈ formats).
Proof.
  assert (Heq : ParseQualitySelection TrimSpace ToLower formats quality
                = filter (fun q => q = "best"%string \/ q ∈ formats)
                    (TrimSpace <$> Split (ToLower (TrimSpace quality)) "/")).
  { unfold ParseQualitySelection. now rewrite select_quality_filter. }
  split; [exact Heq|].
  intros q Hq. rewrite Heq in Hq. apply list_elem_of_filter in Hq. tauto.
Qed.

Lemma append_assoc (a b c : string) : (a +:+ b) +:+ c = a +:+ (b +:+ c).
Proof.
  induction a as [|x a IH]; [reflexivity|].
  rewrite !append_cons, IH. reflexivity.
Qed.

Lemma append_nil_r (a : string) : a +:+ EmptyString = a.
Proof.
  induction a as [|x a IH]; [reflexivity|]. rewrite append_cons, IH. reflexivity.
Qed.

(** A piece without a comma is read to its end by [Split] on [", "]. *)
Lemma split_from_piece (f cur rest : string) :
  ~ In ","%char (list_ascii_of_string f) ->
  split_from ", " 0 cur (f +:+ rest) = split_from ", " 0 (cur +:+ f) rest.
Proof.
  revert cur. induction f as [|c f IH]; intros cur Hnot.
  - now rewrite append_nil_r.
  - rewrite append_cons. cbn [split_from GoString.HasPrefix].
    destruct (Ascii.eqb_spec c ",") as [->|Hne].
    { exfalso. apply Hnot. now left. }
    rewrite IH by (intros Hin; apply Hnot; now right).
    rewrite append_assoc. reflexivity.
Qed.

Lemma split_from_separator (cur rest : string) :
  split_from ", " 0 cur (", " +:+ rest) = cur :: split_from ", " 0 EmptyString rest.
Proof. reflexivity. Qed.

Lemma MakeQualityList_fold (formats : list string) (sb : string) :
  fold_left (fun sb v => sb +:+ v +:+ ", ") formats sb
  = sb +:+ fold_right (fun v rest => v +:+ ", " +:+ rest) EmptyString formats.
Proof.
  revert sb. induction formats as [|v formats IH]; intros sb; cbn [fold_left fold_right].
  - now rewrite append_nil_r.
  - rewrite IH, !append_assoc. reflexivity.
Qed.

(** X10. The list that [MakeQualityList] prints, split at [", "], is the
    formats in their order followed by [best], when no format holds a
    comma. *)
Theorem MakeQualityList_split (formats : list string) :
  (forall f, f ∈ formats -> ~ In ","%char (list_ascii_of_string f)) ->
  Split (MakeQualityList formats) ", " = formats ++ ["best"%string].
Proof.
  intros Hnot. unfold MakeQualityList, Split.
  rewrite MakeQualityList_fold. change (EmptyString +:+ ?x) with x.
  induction formats as [|v formats IH]; [reflexivity|].
  cbn [fold_right app]. rewrite !append_assoc.
  rewrite split_from_piece by (apply Hnot; apply list_elem_of_here).
  rewrite split_from_separator. change (EmptyString +:+ v) with v. f_equal.
  apply IH. intros f Hf. apply Hnot. now apply list_elem_of_further.
Qed.

Lemma MakeQualityList_split_witness :
  Split (MakeQualityList VideoQualities) ", " = VideoQualities ++ ["best"%string].
Proof.
  apply (MakeQualityList_split VideoQualities).
  intros f Hf. rewrite list_elem_of_In in Hf. cbn in Hf.
  repeat (destruct Hf as [<-|Hf]; [cbn; intuition discriminate|]).
  destruct Hf.
Defined.

(** ** Output file names *)

(** X11. [FormatFilename] formats with every value sterilized, whatever
    the blacklist holds: the empty string that it stores for a
    blacklisted key is overwritten at once by the sterilized value. *)
Theorem FormatFilename_ignores_blacklist (TrimSpace ToLower : string -> string)
    (FilenameFormatBlacklist : list string) (fuel : nat) (format : string)
    (vals : gmap string string) :
  map_fold (FormatFilename_entry TrimSpace ToLower FilenameFormatBlacklist) ∅ vals
  = SterilizeFilename <$> vals
  /\ FormatFilename TrimSpace ToLower FilenameFormatBlacklist fuel format vals
     = FormatPythonMapString fuel format (SterilizeFilename <$> vals).
Proof.
  assert (Hfold : map_fold (FormatFilename_entry TrimSpace ToLower FilenameFormatBlacklist)
                    ∅ vals = SterilizeFilename <$> vals).
  { apply (map_fold_weak_ind (fun r m => r = SterilizeFilename <$> m)).
    - now rewrite fmap_empty.
    - intros k v m r Hk ->. unfold FormatFilename_entry.
      rewrite fmap_insert.
      destruct (Contains _ _ _ k); [apply insert_insert_eq | reflexivity]. }
  split; [exact Hfold|]. unfold FormatFilename. now rewrite Hfold.
Qed.

Lemma FindStringSubmatch_none_here (s : string) :
  FindStringSubmatch s = None -> match_here s = None.
Proof.
  destruct s as [|c s]; cbn [FindStringSubmatch];
    destruct (match_here _); [discriminate | reflexivity | discriminate | reflexivity].
Qed.

(** X12. When [FormatPythonMapString] returns without an error, no
    placeholder is left in the string it returns; when it returns an
    error, the string is empty and the key it names is missing from the
    values. *)
Theorem FormatPythonMapString_result (fuel : nat) (format : string)
    (vals : gmap string string) (s : string) (e : option FormatError) :
  FormatPythonMapString fuel format vals = Returns (s, e) ->
  (e = None /\ FindStringSubmatch s = None)
  \/ (exists key, e = Some (UnknownKey key) /\ s = EmptyString /\ vals !! key = None).
Proof.
  revert format. induction fuel as [|fuel IH]; intros format; [discriminate|].
  cbn [FormatPythonMapString].
  destruct (FindStringSubmatch format) as [[match0 match1]|] eqn:Hfind.
  - destruct (vals !! PlainUrl.ToLower match1) as [val|] eqn:Hval.
    + apply IH.
    + intros [= <- <-]. right. eauto.
  - intros [= <- <-]. left. auto.
Qed.

Lemma FormatPythonMapString_result_witness :
  (@None FormatError = None /\ FindStringSubmatch "My Stream-dQw4w9WgXcQ.mp4" = None)
  \/ (exists key, @None FormatError = Some (UnknownKey key)
                  /\ "My Stream-dQw4w9WgXcQ.mp4"%string = EmptyString
                  /\ video_vals !! key = None).
Proof.
  apply (FormatPythonMapString_result 4 "%(Title)s-%(id)s.mp4" video_vals).
  vm_compute. reflexivity.
Defined.

(** X13. When replacing the first placeholder gives the format back (a
    value that is its own placeholder), [FormatPythonMapString] never
    returns: no amount of fuel ends its loop. *)
Theorem FormatPythonMapString_loops (format match0 match1 val : string)
    (vals : gmap string string) (fuel : nat) :
  FindStringSubmatch format = Some (match0, match1) ->
  vals !! PlainUrl.ToLower match1 = Some val ->
  GoString.ReplaceAll format match0 val = format ->
  FormatPythonMapString fuel format vals = OutOfFuel.
Proof.
  intros Hfind Hval Hsame. induction fuel as [|fuel IH]; [reflexivity|].
  cbn [FormatPythonMapString]. rewrite Hfind, Hval, Hsame. exact IH.
Qed.

Lemma FormatPythonMapString_loops_witness :
  FormatPythonMapString 1000 "%(title)s.mp4" looping_vals = OutOfFuel.
Proof.
  apply (FormatPythonMapString_loops "%(title)s.mp4" "%(title)s" "title" "%(title)s"
           looping_vals 1000); vm_compute; reflexivity.
Defined.

Lemma match_here_not_percent (c : ascii) (s : string) :
  c <> "%"%char -> match_here (String c s) = None.
Proof.
  intros Hc. unfold match_here. cbn [GoString.HasPrefix].
  now rewrite (proj2 (Ascii.eqb_neq c "%") Hc).
Qed.

Lemma FindStringSubmatch_skip (pre t : string) :
  ~ In "%"%char (list_ascii_of_string pre) ->
  FindStringSubmatch (pre +:+ t) = FindStringSubmatch t.
Proof.
  induction pre as [|c pre IH]; intros Hnot; [reflexivity|].
  rewrite append_cons. cbn [FindStringSubmatch].
  rewrite match_here_not_percent by (intros ->; apply Hnot; now left).
  apply IH. intros Hin. apply Hnot. now right.
Qed.

Lemma FindStringSubmatch_no_percent (s : string) :
  ~ In "%"%char (list_ascii_of_string s) -> FindStringSubmatch s = None.
Proof.
  intros Hnot. rewrite <- (append_nil_r s).
  now rewrite FindStringSubmatch_skip.
Qed.

Lemma word_run_key (key post : string) :
  (forall c, In c (list_ascii_of_string key) -> is_word c = true) ->
  word_run (key +:+ ")s" +:+ post) = (key, ")s" +:+ post).
Proof.
  induction key as [|c key IH]; intros Hword.
  - reflexivity.
  - rewrite append_cons. cbn [word_run].
    rewrite (Hword c) by now left.
    rewrite IH by (intros d Hd; apply Hword; now right). reflexivity.
Qed.

Lemma match_here_placeholder (key post : string) :
  key <> EmptyString ->
  (forall c, In c (list_ascii_of_string key) -> is_word c = true) ->
  match_here ("%(" +:+ key +:+ ")s" +:+ post) = Some ("%(" +:+ key +:+ ")s", key).
Proof.
  intros Hne Hword. unfold match_here.
  replace (GoString.HasPrefix ("%(" +:+ key +:+ ")s" +:+ post) "%(") with true
    by (symmetry; apply HasPrefix_true; eexists; reflexivity).
  change (GoString.drop 2 ("%(" +:+ key +:+ ")s" +:+ post)) with (key +:+ ")s" +:+ post).
  rewrite word_run_key by assumption.
  destruct key as [|c key]; [contradiction|].
  replace (GoString.HasPrefix (")s" +:+ post) ")s") with true
    by (symmetry; apply HasPrefix_true; eexists; reflexivity).
  reflexivity.
Qed.

Section ReplaceProperties.

(** The string to replace starts with a percent sign: [String "%" old']. *)
Variables old' new : string.

Lemma replace_from_skip (x t : string) :
  GoString.replace_from (String "%" old') new (String.length x) (x +:+ t)
  = GoString.replace_from (String "%" old') new 0 t.
Proof.
  induction x as [|c x IH]; [reflexivity|].
  rewrite append_cons. cbn [GoString.replace_from String.length]. exact IH.
Qed.

Lemma replace_from_here (t : string) :
  GoString.replace_from (String "%" old') new 0 (String "%" old' +:+ t)
  = new +:+ GoString.replace_from (String "%" old') new 0 t.
Proof.
  rewrite append_cons. cbn [GoString.replace_from].
  replace (GoString.HasPrefix (String "%" (old' +:+ t)) (String "%" old')) with true
    by (symmetry; apply HasPrefix_true; exists t; reflexivity).
  cbn [String.length].
  replace (S (String.length old') - 1)%nat with (String.length old') by lia.
  now rewrite replace_from_skip.
Qed.

Lemma replace_from_pre (pre t : string) :
  ~ In "%"%char (list_ascii_of_string pre) ->
  GoString.replace_from (String "%" old') new 0 (pre +:+ t)
  = pre +:+ GoString.replace_from (String "%" old') new 0 t.
Proof.
  induction pre as [|c pre IH]; intros Hnot; [reflexivity|].
  rewrite !append_cons. cbn [GoString.replace_from GoString.HasPrefix].
  rewrite (proj2 (Ascii.eqb_neq c "%")) by (intros ->; apply Hnot; now left).
  rewrite IH by (intros Hin; apply Hnot; now right). reflexivity.
Qed.

Lemma replace_from_no_percent (post : string) :
  ~ In "%"%char (list_ascii_of_string post) ->
  GoString.replace_from (String "%" old') new 0 post = post.
Proof.
  intros Hnot. rewrite <- (append_nil_r post) at 1.
  rewrite replace_from_pre by assumption. cbn [GoString.replace_from].
  apply append_nil_r.
Qed.

End ReplaceProperties.

(** X14. A format without a percent sign is returned as it is, whatever
    the values. *)
Theorem FormatPythonMapString_plain (fuel : nat) (format : string)
    (vals : gmap string string) :
  ~ In "%"%char (list_ascii_of_string format) ->
  FormatPythonMapString (S fuel) format vals = Returns (format, None).
Proof.
  intros Hnot. cbn [FormatPythonMapString].
  now rewrite FindStringSubmatch_no_percent.
Qed.

Lemma FormatPythonMapString_plain_witness :
  FormatPythonMapString 1 "stream.mp4" video_vals = Returns ("stream.mp4"%string, None).
Proof.
  apply (FormatPythonMapString_plain 0 "stream.mp4" video_vals).
  cbn. intuition discriminate.
Defined.

(** X15. A format with one placeholder, around which no percent sign
    occurs, comes back with the placeholder replaced by the value of its
    key, looked up in lower case; the value must hold no percent sign
    either. *)
Theorem FormatPythonMapString_substitutes (fuel : nat) (pre key post val : string)
    (vals : gmap string string) :
  ~ In "%"%char (list_ascii_of_string pre) ->
  ~ In "%"%char (list_ascii_of_string post) ->
  ~ In "%"%char (list_ascii_of_string val) ->
  key <> EmptyString ->
  (forall c, In c (list_ascii_of_string key) -> is_word c = true) ->
  vals !! PlainUrl.ToLower key = Some val ->
  FormatPythonMapString (S (S fuel)) (pre +:+ "%(" +:+ key +:+ ")s" +:+ post) vals
  = Returns (pre +:+ val +:+ post, None).
Proof.
  intros Hpre Hpost Hval Hne Hword Hlook.
  assert (Hfind : FindStringSubmatch (pre +:+ "%(" +:+ key +:+ ")s" +:+ post)
                  = Some ("%(" +:+ key +:+ ")s", key)).
  { rewrite FindStringSubmatch_skip by assumption.
    assert (Hhere := match_here_placeholder key post Hne Hword).
    change ("%(" +:+ key +:+ ")s" +:+ post)
      with (String "%" (String "(" (key +:+ ")s" +:+ post))) in *.
    cbn [FindStringSubmatch]. now rewrite Hhere. }
  assert (Hrep : GoString.ReplaceAll (pre +:+ "%(" +:+ key +:+ ")s" +:+ post)
                   ("%(" +:+ key +:+ ")s") val
                 = pre +:+ val +:+ post).
  { unfold GoString.ReplaceAll.
    assert (Hm : "%(" +:+ key +:+ ")s" +:+ post
                 = String "%" (String "(" (key +:+ ")s")) +:+ post).
    { rewrite !append_cons, append_assoc. reflexivity. }
    rewrite Hm.
    change ("%(" +:+ key +:+ ")s") with (String "%" (String "(" (key +:+ ")s"))).
    rewrite replace_from_pre by assumption.
    rewrite replace_from_here, replace_from_no_percent by assumption.
    reflexivity. }
  cbn [FormatPythonMapString]. rewrite Hfind, Hlook, Hrep.
  rewrite FindStringSubmatch_skip by assumption.
  rewrite FindStringSubmatch_skip by assumption.
  now rewrite FindStringSubmatch_no_percent.
Qed.

Lemma FormatPythonMapString_substitutes_witness :
  FormatPythonMapString 2 ("live-" +:+ "%(" +:+ "Title" +:+ ")s" +:+ ".mp4") video_vals
  = Returns ("live-" +:+ "My Stream" +:+ ".mp4", None).
Proof.
  apply (FormatPythonMapString_substitutes 0 "live-" "Title" ".mp4" "My Stream" video_vals).
  - cbn. intuition discriminate.
  - cbn. intuition discriminate.
  - cbn. intuition discriminate.
  - discriminate.
  - intros c Hc. cbn in Hc.
    repeat (destruct Hc as [<-|Hc]; [reflexivity|]). destruct Hc.
  - vm_compute. reflexivity.
Defined.

(** ** More on the worker state machine *)

(** X16. [ContinueFragmentDownload] answers stop only with the data type
    of the worker finished afterwards, and answers continue only with
    the finished flags as they were and that data type not finished. *)
Theorem stop_means_finished (FragMaxTries : Z)
    (network : DownloadInfo -> VideoStatus) (w : World) (st : fragThreadState) :
  let r := ContinueFragmentDownload FragMaxTries network st w in
  (fst (fst r) = false -> is_finished (DataType st) (snd r) = true)
  /\ (fst (fst r) = true ->
      Finished (Info (snd r)) = Finished (Info w)
      /\ is_finished (DataType st) (snd r) = false).
Proof.
  cbv zeta. run_di.
  destruct (bool_decide (DataType st ∈ Finished (Info w))) eqn:Hfin; di_simpl.
  { split; [intros _; exact Hfin | discriminate]. }
  assert (Hset : bool_decide (DataType st ∈ {[DataType st]} ∪ Finished (Info w)) = true)
    by (apply bool_decide_eq_true; set_solver).
  destruct (FragMaxTries <=? Tries st); di_simpl.
  2:{ split; [discriminate | auto]. }
  destruct (Live (Status (Info w))); di_simpl;
    [destruct (Live (network (Info w))); di_simpl|];
    repeat case_match; di_simpl;
    (split; [intros Hf; first [discriminate Hf | exact Hset]
            | intros Ht; first [discriminate Ht | split; [reflexivity | exact Hfin]]]).
Qed.

(** X17. [ContinueFragmentDownload] never changes the name, the data
    type, the sequence number, the highest known sequence number or the
    403 flag of the worker; [tries] stays or becomes 0, [fullRetries]
    stays or loses one. Below the retry ceiling it changes nothing at
    all, makes no call, and answers continue exactly when the data type is
    not finished. *)
Theorem ContinueFragmentDownload_frame (FragMaxTries : Z)
    (network : DownloadInfo -> VideoStatus) (w : World) (st : fragThreadState) :
  let r := ContinueFragmentDownload FragMaxTries network st w in
  let st' := snd (fst r) in
  Name st' = Name st /\ DataType st' = DataType st /\ SeqNum st' = SeqNum st
  /\ MaxSeq st' = MaxSeq st /\ Is403 st' = Is403 st
  /\ (Tries st' = Tries st \/ Tries st' = 0)
  /\ (FullRetries st' = FullRetries st
      \/ FullRetries st' = GoInt.sub (FullRetries st) 1)
  /\ (Tries st < FragMaxTries ->
      r = ((negb (is_finished (DataType st) w), st), w)).
Proof.
  cbv zeta. run_di.
  destruct (bool_decide (DataType st ∈ Finished (Info w))) eqn:Hfin; di_simpl.
  { repeat split; auto. }
  destruct (Z.leb_spec FragMaxTries (Tries st)) as [Hceil|Hbelow]; di_simpl.
  2:{ repeat split; auto. }
  destruct (Live (Status (Info w))); di_simpl;
    [destruct (Live (network (Info w))); di_simpl|];
    repeat case_match; di_simpl; repeat split; auto; intros; lia.
Qed.

(** X18. One call of [ContinueFragmentDownload] requests at most one
    refresh from the network, and it requests one exactly when the data
    type is not finished, the tries have reached the ceiling and the
    stream is reported live on entry. *)
Theorem ContinueFragmentDownload_refreshes (FragMaxTries : Z)
    (network : DownloadInfo -> VideoStatus) (w : World) (st : fragThreadState) :
  let r := ContinueFragmentDownload FragMaxTries network st w in
  (refreshes (snd r) = refreshes w \/ refreshes (snd r) = S (refreshes w))
  /\ (refreshes (snd r) = S (refreshes w)
      <-> is_finished (DataType st) w = false
          /\ FragMaxTries <= Tries st
          /\ Live (Status (Info w)) = true).
Proof.
  cbv zeta. destruct w as [di calls]. run_di.
  destruct (bool_decide (DataType st ∈ Finished di)) eqn:Hfin; di_simpl.
  { split; [now left|]. split; [lia | intros (? & _); discriminate]. }
  destruct (Z.leb_spec FragMaxTries (Tries st)) as [Hceil|Hbelow]; di_simpl.
  2:{ split; [now left|]. split; [lia | intros (_ & ? & _); lia]. }
  destruct (Live (Status di)) eqn:Hlive; di_simpl.
  - destruct (Live (network di)); di_simpl; repeat case_match; di_simpl;
      unfold refreshes; cbn [Calls];
      rewrite ?List.filter_app, ?length_app; cbn [List.filter is_refresh length];
      (split; [right; lia | split; [auto | lia]]).
  - repeat case_match; di_simpl;
      unfold refreshes; cbn [Calls];
      rewrite ?List.filter_app, ?length_app; cbn [List.filter is_refresh length];
      (split; [left; lia | split; [lia | intros (_ & _ & ?); discriminate]]).
Qed.

(** X19. While the stream is live and the refresh still reports it live,
    a worker at the ceiling is always told to continue, with [tries] set
    back to 0 and nothing marked finished, however few full retries are
    left. *)
Theorem live_stream_continues (FragMaxTries : Z)
    (network : DownloadInfo -> VideoStatus) (w : World) (st : fragThreadState) :
  is_finished (DataType st) w = false ->
  FragMaxTries <= Tries st ->
  Live (Status (Info w)) = true ->
  Live (network (Info w)) = true ->
  let r := ContinueFragmentDownload FragMaxTries network st w in
  fst r = (true, set_Tries 0 (set_FullRetries (GoInt.sub (FullRetries st) 1) st))
  /\ Info (snd r) = {| Status := network (Info w); Finished := Finished (Info w) |}
  /\ refreshes (snd r) = S (refreshes w).
Proof.
  intros Hfin Hceil Hlive Hstill. cbv zeta. destruct w as [di calls].
  unfold is_finished in Hfin. cbn [Info] in *. apply Z.leb_le in Hceil.
  run_di. rewrite Hfin, Hceil. di_simpl. rewrite Hlive. di_simpl.
  rewrite Hstill. di_simpl.
  split; [reflexivity|]. split; [reflexivity|].
  unfold refreshes. cbn [Calls].
  rewrite !List.filter_app, !length_app. cbn [List.filter is_refresh length]. lia.
Qed.

Lemma live_stream_continues_witness :
  let r := ContinueFragmentDownload 10 rotated_url (audio_worker 5 10 0 12 true)
             live_stream in
  fst r = (true, audio_worker 5 0 (-1) 12 true)
  /\ Info (snd r) = {| Status := rotated_url (Info live_stream); Finished := ∅ |}
  /\ refreshes (snd r) = 1%nat.
Proof.
  apply (live_stream_continues 10 rotated_url live_stream (audio_worker 5 10 0 12 true));
    reflexivity.
Defined.

(** X20. Once the stream has ended, a worker at the ceiling is told to
    stop within as many decisions in a row as it has full retries: with
    [fullRetries <= n] the [n]-th decision at the latest answers stop, and
    the data type is finished then. *)
Theorem ended_stream_stops (FragMaxTries : Z) (network : DownloadInfo -> VideoStatus)
    (n : nat) (st : fragThreadState) (w : World) :
  Live (Status (Info w)) = false ->
  FragMaxTries <= Tries st ->
  GoInt.MinInt < FullRetries st <= GoInt.MaxInt ->
  FullRetries st <= Z.of_nat n ->
  (0 < n)%nat ->
  let r := decisions FragMaxTries network n st w in
  fst (fst r) = false /\ is_finished (DataType st) (snd r) = true.
Proof.
  cbv zeta. revert st w.
  induction n as [|n IH]; intros st w Hlive Hceil Hrange Hfull Hpos; [lia|].
  cbn [decisions].
  assert (Hsub : GoInt.sub (FullRetries st) 1 = FullRetries st - 1).
  { apply sub_in_range. unfold GoInt.in_range. lia. }
  destruct w as [[status finished] calls]. cbn [Info Status] in Hlive.
  apply Z.leb_le in Hceil.
  assert (Hset : bool_decide (DataType st ∈ {[DataType st]} ∪ finished) = true).
  { apply bool_decide_eq_true, elem_of_union. left. now apply elem_of_singleton. }
  run_di.
  destruct (bool_decide (DataType st ∈ finished)) eqn:Hfin; di_simpl; [now split|].
  rewrite Hceil. di_simpl. rewrite Hlive. di_simpl. rewrite Hlive. di_simpl.
  destruct (Unavailable status && Is403 st); di_simpl; [now split|].
  rewrite Hsub.
  destruct ((-1 <? MaxSeq st) && (SeqNum st <? GoInt.sub (MaxSeq st) 2)
            && (0 <? FullRetries st - 1)) eqn:Hretry; di_simpl; [|now split].
  apply andb_true_iff in Hretry. destruct Hretry as [_ Hleft].
  apply Z.ltb_lt in Hleft.
  specialize (IH (set_FullRetries (FullRetries st - 1) st)
                {| Info := {| Status := status; Finished := finished |};
                   Calls := (calls ++ [CallPrintStatus]) ++ [CallPrintStatus] |}).
  unfold is_finished in IH. apply IH; di_simpl.
  - exact Hlive.
  - now apply Z.leb_le.
  - unfold GoInt.MinInt in *. lia.
  - lia.
  - lia.
Qed.

Lemma ended_stream_stops_witness :
  let r := decisions 10 same_status 3 (audio_worker 5 10 3 12 false) ended_stream in
  fst (fst r) = false /\ is_finished "audio" (snd r) = true.
Proof.
  apply (ended_stream_stops 10 same_status 3 (audio_worker 5 10 3 12 false) ended_stream).
  - reflexivity.
  - cbn. lia.
  - vm_compute. split; [reflexivity | discriminate].
  - cbn. lia.
  - lia.
Defined.

(** What [HandleFragHttpError] does on a 403, in one equation. *)
Lemma HandleFragHttpError_403 (network : DownloadInfo -> VideoStatus)
    (w : World) (st : fragThreadState) (url : string) :
  HandleFragHttpError network st StatusForbidden url w
  = (set_Is403 true st,
     snd (RefreshURL network (DataType st) url
            {| Info := Info w; Calls := Calls w ++ [CallPrintStatus] |})).
Proof.
  unfold HandleFragHttpError, bind, ret, PrintStatus.
  change (StatusForbidden =? StatusForbidden) with true. cbv iota beta zeta.
  cbn [DataType set_Is403].
  destruct (RefreshURL network (DataType st) url _) as [u w']. reflexivity.
Qed.

(** X21. [HandleFragHttpError] touches the worker only on a 403, where
    it sets the 403 flag and nothing else; it can mark a data type
    finished only on a 404, can request a refresh only on a 403, and on
    any other status code it leaves the collaborator's record as it is. *)
Theorem HandleFragHttpError_frame (network : DownloadInfo -> VideoStatus)
    (w : World) (st : fragThreadState) (statusCode : Z) (url : string) :
  let r := HandleFragHttpError network st statusCode url w in
  fst r = (if statusCode =? StatusForbidden then set_Is403 true st else st)
  /\ (statusCode <> StatusNotFound -> Finished (Info (snd r)) = Finished (Info w))
  /\ (statusCode <> StatusForbidden -> refreshes (snd r) = refreshes w)
  /\ (statusCode <> StatusForbidden -> statusCode <> StatusNotFound ->
      Info (snd r) = Info w).
Proof.
  cbv zeta. destruct w as [di calls].
  destruct (Z.eqb_spec statusCode StatusForbidden) as [->|Hne403].
  { rewrite HandleFragHttpError_403. cbn [fst snd Info Calls].
    split; [reflexivity|]. split; [|split; intros; contradiction].
    intros _. now rewrite RefreshURL_finished. }
  run_di. rewrite (proj2 (Z.eqb_neq _ _) Hne403). di_simpl.
  - destruct (Z.eqb_spec statusCode StatusNotFound) as [->|Hne404]; di_simpl.
    + split; [repeat case_match; reflexivity|].
      split; [intros; contradiction|]. split; [|intros; contradiction].
      intros _. repeat case_match; di_simpl; unfold refreshes; cbn [Calls];
        rewrite ?List.filter_app, ?length_app; cbn [List.filter is_refresh length]; lia.
    + split; [reflexivity|]. split; [reflexivity|]. split; [|reflexivity].
      intros _. unfold refreshes. cbn [Calls].
      rewrite ?List.filter_app, ?length_app. cbn [List.filter is_refresh length]. lia.
Qed.

(** X22. Whatever a 404 marks finished, a transport error in the same
    state marks finished too; the two handlers end in different finished
    sets exactly when [maxSeq] is known, the stream is not live, the data
    type is not yet finished and [seqNum] is [maxSeq - 2]. *)
Theorem not_found_versus_transport_error (network : DownloadInfo -> VideoStatus)
    (w : World) (st : fragThreadState) (url err : string) :
  GoInt.in_range (MaxSeq st) ->
  let notFound := Finished (Info (snd (HandleFragHttpError network st StatusNotFound url w))) in
  let transport := Finished (Info (snd (HandleFragDownloadError st err w))) in
  (notFound ⊆ transport)
  /\ (notFound <> transport
      <-> -1 < MaxSeq st /\ Live (Status (Info w)) = false
          /\ (DataType st ∉ Finished (Info w)) /\ SeqNum st = MaxSeq st - 2).
Proof.
  intros Hmax. cbv zeta.
  rewrite HandleFragHttpError_404, HandleFragDownloadError_eq by assumption.
  destruct (Z.ltb_spec (-1) (MaxSeq st)) as [Hknown|Hunknown]; cbn [andb snd Info Finished].
  2:{ split; [reflexivity|]. split; [intros H; now contradiction H | lia]. }
  destruct (Live (Status (Info w))) eqn:Hlive; cbn [negb andb snd Info Finished].
  { split; [reflexivity|]. split; [intros H; now contradiction H|].
    intros (_ & ? & _). discriminate. }
  destruct (Z.ltb_spec (MaxSeq st - 2) (SeqNum st)) as [Hlast|Hnot];
    destruct (Z.leb_spec (MaxSeq st - 2) (SeqNum st)) as [Hnear|Hfar];
    cbn [snd Info Finished]; try lia.
  - split; [reflexivity|]. split; [intros H; now contradiction H | lia].
  - split; [apply union_subseteq_r|]. split.
    + intros Hdiff. repeat split; try assumption; try lia.
      intros Hin. apply Hdiff. symmetry. apply subseteq_union_1_L.
      now apply singleton_subseteq_l.
    + intros (_ & _ & Hnotin & _) Heq. apply Hnotin. rewrite Heq.
      apply elem_of_union. left. now apply elem_of_singleton.
  - split; [reflexivity|]. split; [intros H; now contradiction H | lia].
Qed.

Lemma not_found_versus_transport_error_witness :
  Finished (Info (snd (HandleFragHttpError same_status (audio_worker 10 0 3 12 false)
                         StatusNotFound "http://x/sq/10" ended_stream)))
  <> Finished (Info (snd (HandleFragDownloadError (audio_worker 10 0 3 12 false)
                            "reset" ended_stream))).
Proof.
  apply (not_found_versus_transport_error same_status ended_stream
           (audio_worker 10 0 3 12 false) "http://x/sq/10" "reset").
  - in_range_solve.
  - split; [reflexivity|]. split; [reflexivity|]. split; [|reflexivity].
    cbn. apply not_elem_of_empty.
Defined.

(** X23. After [RefreshURL] has fetched a URL that differs from the one
    just used, a second [RefreshURL] for the same used URL does nothing:
    the refresh is not requested twice. *)
Theorem RefreshURL_once (network : DownloadInfo -> VideoStatus)
    (dataType currentUrl : string) (w : World) :
  GVideoDDL (Status (Info w)) = false ->
  DownloadUrl (Status (Info w)) dataType = currentUrl ->
  currentUrl <> EmptyString ->
  DownloadUrl (network (Info w)) dataType <> currentUrl ->
  let w1 := snd (RefreshURL network dataType currentUrl w) in
  refreshes w1 = S (refreshes w)
  /\ snd (RefreshURL network dataType currentUrl w1) = w1.
Proof.
  intros Hddl Hurl Hne Hnew. cbv zeta. rewrite (RefreshURL_eq network dataType currentUrl w).
  rewrite Hddl, Hurl, String.eqb_refl, orb_true_r. cbn [negb andb snd].
  split.
  - destruct w as [di calls]. unfold refreshes. cbn [Calls].
    rewrite !List.filter_app, !length_app. cbn [List.filter is_refresh length]. lia.
  - rewrite RefreshURL_eq. cbn [Info Status].
    replace (GoString.len currentUrl =? 0) with false.
    + rewrite (proj2 (String.eqb_neq _ _) Hnew). cbn [orb].
      rewrite andb_false_r. reflexivity.
    + symmetry. apply not_true_iff_false. intros Hlen. now apply len_zero in Hlen.
Qed.

Lemma RefreshURL_once_witness :
  let w1 := snd (RefreshURL rotated_url "audio" "http://x/sq/%d" live_stream) in
  refreshes w1 = 1%nat
  /\ snd (RefreshURL rotated_url "audio" "http://x/sq/%d" w1) = w1.
Proof.
  apply (RefreshURL_once rotated_url "audio" "http://x/sq/%d" live_stream);
    try reflexivity; discriminate.
Defined.

(** X24. A 403 followed by the decision: when, after
    [HandleFragHttpError] has handled a 403, the stream is reported ended
    and the video unavailable, [ContinueFragmentDownload] at the ceiling
    answers stop and the data type is finished, whatever the sequence
    numbers and the full retries left. *)
Theorem forbidden_then_unavailable_stops (FragMaxTries : Z)
    (network : DownloadInfo -> VideoStatus) (w : World) (st : fragThreadState)
    (url : string) :
  let h := HandleFragHttpError network st StatusForbidden url w in
  Live (Status (Info (snd h))) = false ->
  Unavailable (Status (Info (snd h))) = true ->
  FragMaxTries <= Tries st ->
  let r := ContinueFragmentDownload FragMaxTries network (fst h) (snd h) in
  fst (fst r) = false /\ is_finished (DataType st) (snd r) = true.
Proof.
  cbv zeta.
  assert (Hst : fst (HandleFragHttpError network st StatusForbidden url w)
                = set_Is403 true st).
  { now rewrite HandleFragHttpError_403. }
  rewrite Hst.
  generalize (snd (HandleFragHttpError network st StatusForbidden url w)).
  intros [[status finished] calls] Hlive Hun Hceil. cbn [Info Status] in *.
  apply Z.leb_le in Hceil.
  assert (Hset : bool_decide (DataType st ∈ {[DataType st]} ∪ finished) = true).
  { apply bool_decide_eq_true, elem_of_union. left. now apply elem_of_singleton. }
  run_di. di_simpl.
  destruct (bool_decide (DataType st ∈ finished)) eqn:Hfin; di_simpl; [now split|].
  rewrite Hceil. di_simpl. rewrite Hlive. di_simpl. rewrite Hlive. di_simpl.
  rewrite Hun. di_simpl. now split.
Qed.

Lemma forbidden_then_unavailable_stops_witness :
  let h := HandleFragHttpError same_status (audio_worker 5 10 3 12 false)
             StatusForbidden "http://x/sq/5" revoked_stream in
  let r := ContinueFragmentDownload 10 same_status (fst h) (snd h) in
  fst (fst r) = false /\ is_finished "audio" (snd r) = true.
Proof.
  apply (forbidden_then_unavailable_stops 10 same_status revoked_stream
           (audio_worker 5 10 3 12 false) "http://x/sq/5"); reflexivity.
Defined.

(** ** More on the manifest parser *)

Lemma append_length (a b : string) :
  String.length (a +:+ b) = (String.length a + String.length b)%nat.
Proof.
  induction a as [|c a IH]; [reflexivity|].
  rewrite append_cons. cbn [String.length]. now rewrite IH.
Qed.

Lemma drop_append (a b : string) : GoString.drop (String.length a) (a +:+ b) = b.
Proof.
  induction a as [|c a IH]; [reflexivity|].
  rewrite append_cons. cbn [String.length GoString.drop]. exact IH.
Qed.

Lemma HasSuffix_append (a b : string) : GoString.HasSuffix (a +:+ b) b = true.
Proof.
  unfold GoString.HasSuffix. rewrite append_length.
  replace (String.length a + String.length b - String.length b)%nat
    with (String.length a) by lia.
  rewrite drop_append, String.eqb_refl, andb_true_r.
  apply Nat.leb_le. lia.
Qed.

Lemma add_representation_size (urls : gmap Z string) (r : Representation) :
  (size (add_representation urls r) <= S (size urls))%nat.
Proof.
  unfold add_representation. destruct (Strconv.Atoi (Id r)) as [itag err].
  repeat case_match; try lia.
  rewrite map_size_insert. destruct (urls !! itag); unfold id; lia.
Qed.

Lemma urls_of_representations_size (reps : list Representation) :
  (size (urls_of_representations reps) <= length reps)%nat.
Proof.
  unfold urls_of_representations.
  induction reps as [|r reps IH] using rev_ind.
  - cbn. rewrite map_size_empty. lia.
  - rewrite fold_left_app, length_app. cbn [fold_left length].
    pose proof (add_representation_size (fold_left add_representation reps ∅) r). lia.
Qed.

(** X25. [GetUrlsFromManifest] returns the empty map when the manifest
    does not decode; every itag in the map it returns is positive, every
    template ends in [sq/%d], and the map has at most as many entries as
    the manifest has representations. *)
Theorem GetUrlsFromManifest_range
    (xml_Unmarshal : list byte -> option (list Representation))
    (manifest : list byte) :
  (xml_Unmarshal manifest = None -> GetUrlsFromManifest xml_Unmarshal manifest = ∅)
  /\ (forall k t, GetUrlsFromManifest xml_Unmarshal manifest !! k = Some t ->
      0 < k /\ GoString.HasSuffix t "sq/%d" = true)
  /\ (forall reps, xml_Unmarshal manifest = Some reps ->
      (size (GetUrlsFromManifest xml_Unmarshal manifest) <= length reps)%nat).
Proof.
  unfold GetUrlsFromManifest. split; [intros ->; reflexivity|]. split.
  - intros k t. destruct (xml_Unmarshal manifest) as [reps|].
    + rewrite urls_of_representations_lookup.
      intros (pre & r & post & _ & (_ & Hpos & _) & -> & _).
      split; [exact Hpos | apply HasSuffix_append].
    + rewrite lookup_empty. discriminate.
  - intros reps ->. apply urls_of_representations_size.
Qed.

(** X26. The percent escaping of [GetUrlsFromManifest] loses nothing:
    replacing every [%%] of an escaped base URL by [%] gives the base URL
    back, so two base URLs with the same escaped form are equal. *)
Theorem percent_escape_reversible (s : string) :
  GoString.ReplaceAll (GoString.ReplaceAll s "%" "%%") "%%" "%" = s
  /\ (forall s', GoString.ReplaceAll s "%" "%%" = GoString.ReplaceAll s' "%" "%%" ->
      s = s').
Proof.
  assert (Hback : forall t, GoString.ReplaceAll (GoString.ReplaceAll t "%" "%%") "%%" "%" = t).
  { intros t. rewrite ReplaceAll_percent. unfold GoString.ReplaceAll.
    induction t as [|c t IH]; [reflexivity|].
    cbn [double_percent]. destruct (Ascii.eqb_spec c "%") as [->|Hne].
    - cbn [GoString.replace_from GoString.HasPrefix String.length Nat.sub].
      change (Ascii.eqb "%" "%") with true. cbv iota.
      rewrite IH. reflexivity.
    - cbn [GoString.replace_from GoString.HasPrefix].
      rewrite (proj2 (Ascii.eqb_neq c "%") Hne). now rewrite IH. }
  split; [apply Hback|].
  intros s' Heq. rewrite <- (Hback s), <- (Hback s'). now rewrite Heq.
Qed.

(** ** Case-insensitive search *)

(** X27. [Contains] answers true exactly when some entry of the slice,
    trimmed and lower-cased, equals the trimmed and lower-cased value. *)
Theorem Contains_normalised (TrimSpace ToLower : string -> string)
    (arr : list string) (val : string) :
  Contains TrimSpace ToLower arr val = true
  <-> exists s, s ∈ arr /\ ToLower (TrimSpace s) = ToLower (TrimSpace val).
Proof.
  unfold Contains. generalize (ToLower (TrimSpace val)). intros v.
  induction arr as [|x arr IH]; cbn [Contains_loop].
  - split; [discriminate|]. intros (s & Hin & _). inversion Hin.
  - destruct (String.eqb_spec (ToLower (TrimSpace x)) v) as [Heq|Hne].
    + split; [|reflexivity]. intros _. exists x. split; [apply list_elem_of_here | exact Heq].
    + rewrite IH. split.
      * intros (s & Hin & Hs). exists s. split; [now apply list_elem_of_further | exact Hs].
      * intros (s & Hin & Hs). apply elem_of_cons in Hin. destruct Hin as [->|Hin].
        -- contradiction.
        -- exists s. auto.
Qed.
